(** * Suivi de candidatures: the filter proxy, the reminder count and the
      CSV import/export of [suivi_candidatures.py], embedded in Rocq.

    Python [str] values are kept as their UTF-8 bytes in [string]; the
    SQLite table [candidatures] is a list of rows in insertion order. *)

From Stdlib Require Import String Ascii List Bool ZArith Lia.
From Stdlib Require Import Decimal DecimalString DecimalPos DecimalZ.
Import ListNotations.
Open Scope string_scope.
Open Scope Z_scope.

(* ================================================================== *)
(** ** Python values and strings *)

(** What [QSqlTableModel.data] hands back to Python for one cell. *)
Inductive value :=
| VNull
| VInt (i : Z)
| VText (s : string).

(** [x or ""] applied to a cell that is read as text. *)
Definition or_empty (v : option string) : string :=
  match v with
  | Some s => s
  | None => ""
  end.

(** Truth value of a Python string: only the empty string is false. *)
Definition truthy (s : string) : bool :=
  match s with
  | EmptyString => false
  | String _ _ => true
  end.

(** [x or None] on the result of [dict.get]. *)
Definition or_None (v : option string) : option string :=
  match v with
  | Some s => if truthy s then Some s else None
  | None => None
  end.

(** The two [str] methods the program calls.  Both depend on the Unicode
    tables of the interpreter, so the development is parametric in them;
    [AsciiStr] below is the instance used for concrete runs. *)
Class PyStr := {
  lower : string -> string;
  strip : string -> string
}.

(** [QRegularExpression(text, CaseInsensitiveOption)]: [re_isValid] is
    [isValid()], [re_hasMatch p h] is [match(h).hasMatch()].  Matching
    against an invalid pattern yields an invalid match object, whose
    [hasMatch()] is false. *)
Class RegexEngine := {
  re_isValid : string -> bool;
  re_hasMatch : string -> string -> bool
}.

Class RegexLawful (E : RegexEngine) : Prop := {
  re_invalid_no_match :
    forall p h, re_isValid p = false -> re_hasMatch p h = false
}.

(* ------------------------------------------------------------------ *)
(** *** ASCII instance of the string methods *)

Definition is_upper (c : ascii) : bool :=
  let n := N_of_ascii c in ((65 <=? n) && (n <=? 90))%N.

Definition lower_ascii (c : ascii) : ascii :=
  if is_upper c then ascii_of_N (N_of_ascii c + 32) else c.

Fixpoint lower_bytes (s : string) : string :=
  match s with
  | EmptyString => EmptyString
  | String c s' => String (lower_ascii c) (lower_bytes s')
  end.

(** ASCII characters for which [str.isspace] holds. *)
Definition is_space (c : ascii) : bool :=
  let n := N_of_ascii c in
  (((9 <=? n) && (n <=? 13)) || ((28 <=? n) && (n <=? 32)))%N.

Fixpoint lstrip_bytes (s : string) : string :=
  match s with
  | EmptyString => EmptyString
  | String c s' => if is_space c then lstrip_bytes s' else s
  end.

Fixpoint rstrip_bytes (s : string) : string :=
  match s with
  | EmptyString => EmptyString
  | String c s' =>
      match rstrip_bytes s' with
      | EmptyString => if is_space c then EmptyString else String c EmptyString
      | t => String c t
      end
  end.

Definition strip_bytes (s : string) : string := rstrip_bytes (lstrip_bytes s).

#[export] Instance AsciiStr : PyStr :=
  {| lower := lower_bytes; strip := strip_bytes |}.

(* ------------------------------------------------------------------ *)
(** *** A reference regular-expression engine

    Covers the fragment of the pattern syntax made of literals, [.],
    the postfix operators [*] [+] [?], alternation and groups, with
    caseless comparison of ASCII letters.  A pattern outside the fragment
    is refused by [compile]. *)

Inductive regex :=
| Empty
| Eps
| Chr (c : ascii)
| AnyChar
| Cat (r1 r2 : regex)
| Alt (r1 r2 : regex)
| Star (r : regex).

Fixpoint nullable (r : regex) : bool :=
  match r with
  | Empty => false
  | Eps => true
  | Chr _ => false
  | AnyChar => false
  | Cat r1 r2 => nullable r1 && nullable r2
  | Alt r1 r2 => nullable r1 || nullable r2
  | Star _ => true
  end.

Definition newline : ascii := ascii_of_N 10.

Fixpoint deriv (a : ascii) (r : regex) : regex :=
  match r with
  | Empty => Empty
  | Eps => Empty
  | Chr c => if Ascii.eqb (lower_ascii c) (lower_ascii a) then Eps else Empty
  | AnyChar => if Ascii.eqb a newline then Empty else Eps
  | Cat r1 r2 =>
      if nullable r1
      then Alt (Cat (deriv a r1) r2) (deriv a r2)
      else Cat (deriv a r1) r2
  | Alt r1 r2 => Alt (deriv a r1) (deriv a r2)
  | Star r1 => Cat (deriv a r1) (Star r1)
  end.

(** Some prefix of [s] is in the language of [r]. *)
Fixpoint match_prefix (r : regex) (s : string) : bool :=
  nullable r ||
  match s with
  | EmptyString => false
  | String a s' => match_prefix (deriv a r) s'
  end.

(** Some substring of [s] is in the language of [r]. *)
Fixpoint search (r : regex) (s : string) : bool :=
  match_prefix r s ||
  match s with
  | EmptyString => false
  | String _ s' => search r s'
  end.

(** One open group of the parser: the alternatives already closed by a
    [|], and the items of the current alternative, last one first. *)
Record frame := mkframe { alts : list regex; items : list regex }.

Definition seq_of (l : list regex) : regex :=
  fold_left (fun acc r => Cat r acc) l Eps.

Definition close_frame (f : frame) : regex :=
  fold_left (fun acc r => Alt r acc) (alts f) (seq_of (items f)).

Definition push_item (r : regex) (f : frame) : frame :=
  mkframe (alts f) (r :: items f).

(** A backslash before a character that is neither a letter nor a digit
    makes it a literal. *)
Definition is_literal_escape (c : ascii) : bool :=
  let n := N_of_ascii c in
  negb (((48 <=? n) && (n <=? 57)) || ((65 <=? n) && (n <=? 90))
        || ((97 <=? n) && (n <=? 122)) || (128 <=? n))%N.

(** [quantified] tells that the last item was produced by a postfix
    operator; a second operator on it is outside the fragment. *)
Fixpoint parse (p : string) (cur : frame) (quantified : bool)
  (stack : list frame) : option regex :=
  match p with
  | EmptyString =>
      match stack with
      | [] => Some (close_frame cur)
      | _ :: _ => None
      end
  | String c p' =>
      if Ascii.eqb c "(" then parse p' (mkframe [] []) false (cur :: stack)
      else if Ascii.eqb c ")" then
        match stack with
        | [] => None
        | up :: stack' => parse p' (push_item (close_frame cur) up) false stack'
        end
      else if Ascii.eqb c "|" then
        parse p' (mkframe (seq_of (items cur) :: alts cur) []) false stack
      else if Ascii.eqb c "*" || Ascii.eqb c "+" || Ascii.eqb c "?" then
        match items cur with
        | [] => None
        | r :: rest =>
            if quantified then None
            else
              let r' := if Ascii.eqb c "*" then Star r
                        else if Ascii.eqb c "+" then Cat r (Star r)
                        else Alt Eps r in
              parse p' (mkframe (alts cur) (r' :: rest)) true stack
        end
      else if Ascii.eqb c "." then parse p' (push_item AnyChar cur) false stack
      else if Ascii.eqb c "\" then
        match p' with
        | EmptyString => None
        | String e p'' =>
            if is_literal_escape e
            then parse p'' (push_item (Chr e) cur) false stack
            else None
        end
      else if Ascii.eqb c "[" || Ascii.eqb c "{" || Ascii.eqb c "^"
              || Ascii.eqb c "$" then None
      else parse p' (push_item (Chr c) cur) false stack
  end.

Definition compile (p : string) : option regex :=
  parse p (mkframe [] []) false [].

Definition mini_isValid (p : string) : bool :=
  match compile p with Some _ => true | None => false end.

Definition mini_hasMatch (p h : string) : bool :=
  match compile p with
  | Some r => search r h
  | None => false
  end.

#[export] Instance MiniRegex : RegexEngine :=
  {| re_isValid := mini_isValid; re_hasMatch := mini_hasMatch |}.

(* ================================================================== *)
(** ** The table [candidatures] *)

(** One row.  [titre] is declared [TEXT NOT NULL] and [created_at]
    defaults to the insertion time, so neither is ever NULL. *)
Record row := mkrow {
  id : Z;
  numero : option string;
  titre : string;
  structure : option string;
  date_limite : option string;
  priorite : option string;
  canal_envoi : option string;
  statut : option string;
  date_envoi : option string;
  notes : option string;
  created_at : string
}.

Inductive column :=
| col_id | col_numero | col_titre | col_structure | col_date_limite
| col_priorite | col_canal_envoi | col_statut | col_date_envoi
| col_notes | col_created_at.

Definition text_value (v : option string) : value :=
  match v with
  | Some s => VText s
  | None => VNull
  end.

(** [model.data(model.index(r, model.fieldIndex(name)))]. *)
Definition model_data (r : row) (c : column) : value :=
  match c with
  | col_id => VInt (id r)
  | col_numero => text_value (numero r)
  | col_titre => VText (titre r)
  | col_structure => text_value (structure r)
  | col_date_limite => text_value (date_limite r)
  | col_priorite => text_value (priorite r)
  | col_canal_envoi => text_value (canal_envoi r)
  | col_statut => text_value (statut r)
  | col_date_envoi => text_value (date_envoi r)
  | col_notes => text_value (notes r)
  | col_created_at => VText (created_at r)
  end.

(** The text of a cell of a [TEXT] column, [None] for NULL. *)
Definition as_text (v : value) : option string :=
  match v with
  | VText s => Some s
  | _ => None
  end.

(* ================================================================== *)
(** ** [CandidatureFilterProxy] *)

Record CandidatureFilterProxy := mkproxy {
  search_regex : string;            (* the pattern of the compiled regex *)
  filter_statut : option string;
  filter_priorite : option string;
  max_deadline : option string
}.

(** State set up by [__init__]. *)
Definition proxy_init : CandidatureFilterProxy :=
  mkproxy "" None None None.

Definition set_search_text (p : CandidatureFilterProxy) (text : string) :=
  mkproxy text (filter_statut p) (filter_priorite p) (max_deadline p).

Definition set_filter_statut (p : CandidatureFilterProxy) (s : option string) :=
  let f := match s with
           | Some x => if truthy x && negb (x =? "(Tous)")%string
                       then Some x else None
           | None => None
           end in
  mkproxy (search_regex p) f (filter_priorite p) (max_deadline p).

Definition set_filter_priorite (p : CandidatureFilterProxy) (s : option string) :=
  let f := match s with
           | Some x => if truthy x && negb (x =? "(Toutes)")%string
                       then Some x else None
           | None => None
           end in
  mkproxy (search_regex p) (filter_statut p) f (max_deadline p).

Definition set_max_deadline (p : CandidatureFilterProxy) (d : option string) :=
  mkproxy (search_regex p) (filter_statut p) (filter_priorite p) d.

Section Filter.
Context {PS : PyStr} {RE : RegexEngine}.

(** The inner function [data] of [filterAcceptsRow]. *)
Definition data (r : row) (c : column) : string :=
  lower (or_empty (as_text (model_data r c))).

(** The text the search pattern is matched against. *)
Definition hay (r : row) : string :=
  String.concat " "
    [data r col_numero; data r col_titre; data r col_structure;
     data r col_priorite; data r col_canal_envoi; data r col_statut;
     data r col_notes].

(** [filterAcceptsRow] on the row [r] of the source model (the proxy is
    given its source model when the window is built). *)
Definition filterAcceptsRow (p : CandidatureFilterProxy) (r : row) : bool :=
  if truthy (search_regex p) && negb (re_hasMatch (search_regex p) (hay r))
  then false
  else if match filter_statut p with
          | Some f => negb (data r col_statut =? lower f)%string
          | None => false
          end
  then false
  else if match filter_priorite p with
          | Some f => negb (data r col_priorite =? lower f)%string
          | None => false
          end
  then false
  else if match max_deadline p with
          | Some m =>
              truthy m &&
              match as_text (model_data r col_date_limite) with
              | Some dl_val => truthy dl_val && (m <? dl_val)%string
              | None => false
              end
          | None => false
          end
  then false
  else true.
End Filter.

(* ================================================================== *)
(** ** Calendar dates ([datetime]) *)

Record date := mkdate { year : Z; month : Z; day : Z }.

Definition MINYEAR : Z := 1.
Definition MAXYEAR : Z := 9999.

Definition is_leap (y : Z) : bool :=
  ((y mod 4 =? 0) && negb (y mod 100 =? 0)) || (y mod 400 =? 0).

Definition days_in_month (y m : Z) : Z :=
  if m =? 2 then (if is_leap y then 29 else 28)
  else if (m =? 4) || (m =? 6) || (m =? 9) || (m =? 11) then 30
  else 31.

Definition valid_date (d : date) : bool :=
  (MINYEAR <=? year d) && (year d <=? MAXYEAR) &&
  (1 <=? month d) && (month d <=? 12) &&
  (1 <=? day d) && (day d <=? days_in_month (year d) (month d)).

(** The day after [d] in the proleptic Gregorian calendar. *)
Definition next_day (d : date) : date :=
  if day d <? days_in_month (year d) (month d)
  then mkdate (year d) (month d) (day d + 1)
  else if month d <? 12
  then mkdate (year d) (month d + 1) 1
  else mkdate (year d + 1) 1 1.

(** Calendar order. *)
Definition date_compare (a b : date) : comparison :=
  match year a ?= year b with
  | Eq => match month a ?= month b with
          | Eq => day a ?= day b
          | c => c
          end
  | c => c
  end.

Definition date_leb (a b : date) : bool :=
  match date_compare a b with
  | Gt => false
  | _ => true
  end.

(** Exceptions the modelled code can raise. *)
Inductive exn := OverflowError.

Inductive outcome (A : Type) :=
| Returned (a : A)
| Raised (e : exn).
Arguments Returned {A} a.
Arguments Raised {A} e.

Definition bind {A B : Type} (m : outcome A) (k : A -> outcome B) : outcome B :=
  match m with
  | Returned a => k a
  | Raised e => Raised e
  end.

Notation "x <- m ;; k" := (bind m (fun x => k))
  (at level 61, m at next level, right associativity).

(** [d + timedelta(days=n)] for [0 <= n] (the spin box of the window
    ranges over 0..60): a date past [MAXYEAR] raises [OverflowError]. *)
Fixpoint timedelta_add (d : date) (n : nat) : outcome date :=
  match n with
  | O => Returned d
  | S n' =>
      let d' := next_day d in
      if year d' <=? MAXYEAR then timedelta_add d' n' else Raised OverflowError
  end.

Definition digit (n : Z) : ascii := ascii_of_N (Z.to_N (48 + n)).

Definition two_digits (n : Z) : string :=
  String (digit (n / 10)) (String (digit (n mod 10)) EmptyString).

Definition four_digits (n : Z) : string :=
  String (digit (n / 1000))
    (String (digit (n / 100 mod 10))
       (String (digit (n / 10 mod 10))
          (String (digit (n mod 10)) EmptyString))).

(** [strftime("%Y-%m-%d")] and [QDate.toString("yyyy-MM-dd")]; the year
    is printed on four digits, which is what every platform does from
    year 1000 on. *)
Definition strftime (d : date) : string :=
  four_digits (year d) ++ "-" ++ two_digits (month d) ++ "-"
  ++ two_digits (day d).

Definition digit_value (c : ascii) : option Z :=
  let n := Z.of_N (N_of_ascii c) in
  if (48 <=? n) && (n <=? 57) then Some (n - 48) else None.

Definition number_of (cs : list ascii) : option Z :=
  fold_left (fun acc c =>
               match acc, digit_value c with
               | Some a, Some v => Some (10 * a + v)
               | _, _ => None
               end) cs (Some 0).

(** The calendar date written by an ISO [YYYY-MM-DD] text, if any. *)
Definition date_of_iso (s : string) : option date :=
  match list_ascii_of_string s with
  | [y1; y2; y3; y4; s1; m1; m2; s2; d1; d2] =>
      if Ascii.eqb s1 "-" && Ascii.eqb s2 "-" then
        match number_of [y1; y2; y3; y4], number_of [m1; m2], number_of [d1; d2] with
        | Some y, Some m, Some d =>
            let dt := mkdate y m d in
            if valid_date dt then Some dt else None
        | _, _, _ => None
        end
      else None
  | _ => None
  end.

(* ================================================================== *)
(** ** The SQLite store *)

(** The dictionary bound to the named placeholders of INSERT and UPDATE. *)
Record payload := mkpayload {
  p_numero : option string;
  p_titre : option string;
  p_structure : option string;
  p_date_limite : option string;
  p_priorite : option string;
  p_canal_envoi : option string;
  p_statut : option string;
  p_date_envoi : option string;
  p_notes : option string
}.

(** The database file: [table] is [None] when the table does not exist
    (every statement on it then fails), [autoinc] is the largest id handed
    out so far (AUTOINCREMENT). *)
Record db := mkdb {
  table : option (list row);
  autoinc : Z
}.

(** [ensure_database] on a path that does not exist yet. *)
Definition ensure_database : db := mkdb (Some []) 0.

Definition next_id (d : db) (rows : list row) : Z :=
  1 + fold_left Z.max (map id rows) (autoinc d).

Definition new_row (i : Z) (now : string) (t : string) (p : payload) : row :=
  mkrow i (p_numero p) t (p_structure p) (p_date_limite p) (p_priorite p)
    (p_canal_envoi p) (p_statut p) (p_date_envoi p) (p_notes p) now.

(** The INSERT statement; [None] when [exec()] returns false, which it does
    when the table is missing or [titre] is NULL. *)
Definition sql_insert (d : db) (now : string) (p : payload) : option db :=
  match table d with
  | None => None
  | Some rows =>
      match p_titre p with
      | None => None
      | Some t =>
          let i := next_id d rows in
          Some (mkdb (Some (rows ++ [new_row i now t p])%list) i)
      end
  end.

Definition set_row (r : row) (t : string) (p : payload) : row :=
  new_row (id r) (created_at r) t p.

(** The UPDATE ... WHERE id=:id statement, [key] being the integer that
    [:id] compares equal to, if any.  The NOT NULL constraint is checked
    on the rows that are updated only: with no such row the statement
    succeeds and changes nothing. *)
Definition sql_update (d : db) (key : option Z) (p : payload) : option db :=
  match table d with
  | None => None
  | Some rows =>
      match key with
      | None => Some d
      | Some i =>
          if existsb (fun r => id r =? i) rows then
            match p_titre p with
            | None => None
            | Some t =>
                Some (mkdb (Some (map (fun r => if id r =? i
                                                then set_row r t p else r) rows))
                        (autoinc d))
            end
          else Some d
      end
  end.

(** DELETE FROM candidatures WHERE id = i. *)
Definition sql_delete (d : db) (i : Z) : option db :=
  match table d with
  | None => None
  | Some rows =>
      Some (mkdb (Some (filter (fun r => negb (id r =? i)) rows)) (autoinc d))
  end.

(** The SELECT COUNT( * ) of [count_deadline_within]; text is compared
    byte by byte (BINARY collation). *)
Definition due_row (d1 d2 : string) (r : row) : bool :=
  match statut r with
  | Some s => (s =? "À postuler")%string
  | None => false
  end &&
  match date_limite r with
  | Some x => (d1 <=? x)%string && (x <=? d2)%string
  | None => false
  end.

Definition sql_count_due (d : db) (d1 d2 : string) : option nat :=
  match table d with
  | None => None
  | Some rows => Some (List.length (filter (due_row d1 d2) rows))
  end.

(** Rows shown by the [QSqlTableModel] after [select()]. *)
Definition model_rows (d : db) : list row :=
  match table d with
  | Some rows => rows
  | None => []
  end.

(** Decimal text of an integer, as [str] and the CSV writer print it. *)
Definition text_of_id (i : Z) : string := NilZero.string_of_int (Z.to_int i).

(** The integer a decimal text is compared as against the INTEGER column
    [id]. *)
Definition id_of_text (s : string) : option Z :=
  option_map Z.of_int (NilZero.int_of_string s).

(* ================================================================== *)
(** ** [CandidatureDialog] *)

(** Contents of the widgets when the dialog is accepted. *)
Record CandidatureDialog := mkdialog {
  w_numero : string;
  w_titre : string;
  w_structure : string;
  w_date_limite : date;
  w_priorite : string;
  w_canal : string;
  w_statut : string;
  w_date_envoi : date;
  w_notes : string
}.

(** The inner function [qdate_to_str] of [get_data]; the date edits
    range from 1970-01-01 to 9999-12-31, where [isValid()] is
    [valid_date]. *)
Definition qdate_to_str (d : date) : option string :=
  if valid_date d then Some (strftime d) else None.

Section Dialog.
Context {PS : PyStr}.

Definition get_data (dlg : CandidatureDialog) : option payload :=
  let t := strip (w_titre dlg) in
  if truthy t then
    Some (mkpayload
            (or_None (Some (strip (w_numero dlg))))
            (Some t)
            (or_None (Some (strip (w_structure dlg))))
            (qdate_to_str (w_date_limite dlg))
            (Some (w_priorite dlg))
            (Some (w_canal dlg))
            (Some (w_statut dlg))
            (qdate_to_str (w_date_envoi dlg))
            (or_None (Some (strip (w_notes dlg)))))
  else None.
End Dialog.

(* ================================================================== *)
(** ** [MainWindow] *)

Record MainWindow := mkwindow {
  database : db;
  remind_days : nat;
  lbl_alerts : string
}.

(** Interval of the reminder timer, in milliseconds. *)
Definition timer_interval : Z := 60 * 1000.

(** State after [MainWindow.__init__] on the database [d]. *)
Definition window_init (d : db) : MainWindow := mkwindow d 3 "".

Definition _insert_row (d : db) (now : string) (p : payload) : db :=
  match sql_insert d now p with
  | Some d' => d'
  | None => d          (* QMessageBox.critical *)
  end.

Definition _update_row (d : db) (r : row) (p : payload) : db :=
  if id r =? 0 then d  (* QMessageBox.critical *)
  else match sql_update d (Some (id r)) p with
       | Some d' => d'
       | None => d     (* QMessageBox.critical *)
       end.

(** A row read by [csv.DictReader]: the text under each header, [None]
    for a header the file does not have. *)
Definition csv_row := column -> option string.

(** The text written for a cell; [None] is written as the empty field. *)
Definition csv_text (v : value) : string :=
  match v with
  | VNull => ""
  | VInt i => text_of_id i
  | VText s => s
  end.

(** The row read back from the exported file. *)
Definition exported (r : row) : csv_row :=
  fun c => Some (csv_text (model_data r c)).

(** The rows of the file written by [export_csv], as [csv.DictReader]
    reads them back under the header line. *)
Definition export_csv (d : db) : list csv_row :=
  map exported (model_rows d).

Definition import_payload (r : csv_row) : payload :=
  mkpayload (or_None (r col_numero)) (or_None (r col_titre))
    (or_None (r col_structure)) (or_None (r col_date_limite))
    (or_None (r col_priorite)) (or_None (r col_canal_envoi))
    (or_None (r col_statut)) (or_None (r col_date_envoi))
    (or_None (r col_notes)).

(** Body of the loop of [import_csv] for one row of the file. *)
Definition import_row (d : db) (now : string) (r : csv_row) : db :=
  let p := import_payload r in
  match or_None (r col_id) with
  | Some rid =>
      match sql_update d (id_of_text rid) p with
      | Some d' => d'
      | None => _insert_row d now p
      end
  | None => _insert_row d now p
  end.

(** [import_csv] on the rows of the chosen file; [clock k] is the time at
    which the k-th row is processed. *)
Fixpoint import_csv (d : db) (clock : nat -> string) (rows : list csv_row) : db :=
  match rows with
  | [] => d
  | r :: rest => import_csv (import_row d (clock O) r) (fun k => clock (S k)) rest
  end.

Definition str_nat (n : nat) : string := NilZero.string_of_uint (Nat.to_uint n).

Definition alert_text (n days : nat) : string :=
  "⚠ " ++ str_nat n ++ " candidature(s) avec date limite ≤ " ++ str_nat days
  ++ " j".

(** [count_deadline_within(days)] when [datetime.today()] is [now]. *)
Definition count_deadline_within (d : db) (days : nat) (now : date)
  : outcome nat :=
  let today := strftime now in
  limit <- timedelta_add now days ;;
  match sql_count_due d today (strftime limit) with
  | None => Returned O
  | Some n => Returned n
  end.

(** [update_reminders], run by the timer and by the spin box. *)
Definition update_reminders (w : MainWindow) (now : date) : outcome MainWindow :=
  n <- count_deadline_within (database w) (remind_days w) now ;;
  Returned (mkwindow (database w) (remind_days w)
              (if (0 <? n)%nat then alert_text n (remind_days w) else "")).

Definition on_remind_days_changed (w : MainWindow) (days : nat) (now : date)
  : outcome MainWindow :=
  update_reminders (mkwindow (database w) days (lbl_alerts w)) now.

Definition with_database (w : MainWindow) (d : db) : MainWindow :=
  mkwindow d (remind_days w) (lbl_alerts w).

Section Window.
Context {PS : PyStr}.

(** [add_record]; [dlg] is [None] when the dialog is cancelled. *)
Definition add_record (w : MainWindow) (dlg : option CandidatureDialog)
  (now : string) : MainWindow :=
  match dlg with
  | Some fields =>
      match get_data fields with
      | Some p => with_database w (_insert_row (database w) now p)
      | None => w
      end
  | None => w
  end.

(** [edit_selected]; [sel] is the selected row of the source model. *)
Definition edit_selected (w : MainWindow) (sel : option nat)
  (dlg : option CandidatureDialog) : MainWindow :=
  match sel with
  | Some k =>
      match nth_error (model_rows (database w)) k, dlg with
      | Some r, Some fields =>
          match get_data fields with
          | Some p => with_database w (_update_row (database w) r p)
          | None => w
          end
      | _, _ => w
      end
  | None => w
  end.

(** [delete_selected]; [confirm] is the answer to the question box. *)
Definition delete_selected (w : MainWindow) (sel : option nat)
  (confirm : bool) : MainWindow :=
  match sel with
  | Some k =>
      match nth_error (model_rows (database w)) k with
      | Some r =>
          if confirm then
            match sql_delete (database w) (id r) with
            | Some d' => with_database w d'
            | None => w
            end
          else w
      | None => w
      end
  | None => w
  end.

(** What the event loop delivers to the window. *)
Inductive event :=
| ev_timeout (now : date)
| ev_remind_days_changed (days : nat) (now : date)
| ev_add_record (dlg : option CandidatureDialog) (now : string)
| ev_edit_selected (sel : option nat) (dlg : option CandidatureDialog)
| ev_delete_selected (sel : option nat) (confirm : bool)
| ev_import_csv (clock : nat -> string) (file : option (list csv_row)).

Definition step (w : MainWindow) (e : event) : outcome MainWindow :=
  match e with
  | ev_timeout now => update_reminders w now
  | ev_remind_days_changed days now => on_remind_days_changed w days now
  | ev_add_record dlg now => Returned (add_record w dlg now)
  | ev_edit_selected sel dlg => Returned (edit_selected w sel dlg)
  | ev_delete_selected sel confirm => Returned (delete_selected w sel confirm)
  | ev_import_csv clock file =>
      match file with
      | Some rows => Returned (with_database w (import_csv (database w) clock rows))
      | None => Returned w
      end
  end.

Fixpoint run (w : MainWindow) (es : list event) : outcome MainWindow :=
  match es with
  | [] => Returned w
  | e :: es' => w' <- step w e ;; run w' es'
  end.
End Window.

(* ================================================================== *)
(** ** Start-up, the edit dialog, the column view and the theme *)

Definition PRIORITES : list string := ["Faible"; "Moyenne"; "Élevée"].

Definition STATUTS : list string :=
  ["À postuler"; "Envoyé"; "En attente"; "Relancé"; "Refusé"; "Accepté"].

Definition CANAL_ENVOI : list string :=
  ["Email"; "Plateforme"; "Site carrière"; "Recommandation"; "Autre"].

(** [x in l] for the result of [dict.get] and a list of strings. *)
Definition str_in (x : option string) (l : list string) : bool :=
  match x with
  | Some s => existsb (String.eqb s) l
  | None => false
  end.

(** [ensure_database] on a path: [file] is [None] when nothing exists
    there yet.  An existing file is opened as it is; the table is only
    created together with the file. *)
Definition ensure_database_at (file : option db) : db :=
  match file with
  | None => ensure_database
  | Some d => d
  end.

(** What a [QLineEdit] and a [QTextEdit] give back from [text()] and
    [toPlainText()] after [setText(s)] and [setPlainText(s)]. *)
Class QtText := {
  line_edit_text : string -> string;
  plain_text_edit_text : string -> string
}.

(** [datetime.strptime(value, DATE_FMT)], [None] when it raises. *)
Class PyTime := {
  strptime : string -> option date
}.

(** The widgets give back what they were given. *)
#[export] Instance PlainText : QtText :=
  {| line_edit_text := fun s => s; plain_text_edit_text := fun s => s |}.

(** Reads ISO texts only. *)
#[export] Instance IsoTime : PyTime := {| strptime := date_of_iso |}.

(** Range of the two date edits: the minimum set by [__init__] and the
    maximum a [QDateEdit] starts with. *)
Definition DATE_EDIT_MIN : date := mkdate 1970 1 1.
Definition DATE_EDIT_MAX : date := mkdate 9999 12 31.

(** [QDateEdit.setDate(d)] on a widget showing [cur]: an invalid date is
    ignored, a valid one is brought into the range of the widget. *)
Definition date_edit_setDate (cur d : date) : date :=
  if valid_date d then
    if date_leb d DATE_EDIT_MIN then DATE_EDIT_MIN
    else if date_leb DATE_EDIT_MAX d then DATE_EDIT_MAX
    else d
  else cur.

(** [_row_to_dict]: the eleven cells of a row under their column names. *)
Definition _row_to_dict (r : row) : column -> value := model_data r.

(** The widgets of a dialog built without data when the current date is
    [today]: empty texts, the first item of each combo box, today in both
    date edits. *)
Definition dialog_new (today : date) : CandidatureDialog :=
  let shown := date_edit_setDate (mkdate 2000 1 1) today in
  mkdialog "" "" "" shown "Faible" "Email" "À postuler" shown "".

Section LoadData.
Context {QT : QtText} {PT : PyTime}.

(** The inner function [set_qdate] of [load_data]. *)
Definition set_qdate (cur : date) (v : option string) : date :=
  match v with
  | Some s =>
      if truthy s then
        match strptime s with
        | Some dt => date_edit_setDate cur dt
        | None => cur
        end
      else cur
  | None => cur
  end.

(** [load_data] on the widgets [dlg]. *)
Definition load_data (dlg : CandidatureDialog) (d : column -> value)
  : CandidatureDialog :=
  let get c := as_text (d c) in
  mkdialog
    (line_edit_text (or_empty (get col_numero)))
    (line_edit_text (or_empty (get col_titre)))
    (line_edit_text (or_empty (get col_structure)))
    (set_qdate (w_date_limite dlg) (get col_date_limite))
    (if str_in (get col_priorite) PRIORITES
     then or_empty (get col_priorite) else w_priorite dlg)
    (if str_in (get col_canal_envoi) CANAL_ENVOI
     then or_empty (get col_canal_envoi) else w_canal dlg)
    (if str_in (get col_statut) STATUTS
     then or_empty (get col_statut) else w_statut dlg)
    (set_qdate (w_date_envoi dlg) (get col_date_envoi))
    (plain_text_edit_text (or_empty (get col_notes))).

(** [CandidatureDialog(parent, data)] as [edit_selected] builds it for
    the row [r]. *)
Definition edit_dialog (today : date) (r : row) : CandidatureDialog :=
  load_data (dialog_new today) (_row_to_dict r).
End LoadData.

(** [model.fieldIndex(name)], [None] standing for -1. *)
Definition fieldIndex (name : string) : option column :=
  if (name =? "id")%string then Some col_id
  else if (name =? "numero")%string then Some col_numero
  else if (name =? "titre")%string then Some col_titre
  else if (name =? "structure")%string then Some col_structure
  else if (name =? "date_limite")%string then Some col_date_limite
  else if (name =? "priorite")%string then Some col_priorite
  else if (name =? "canal_envoi")%string then Some col_canal_envoi
  else if (name =? "statut")%string then Some col_statut
  else if (name =? "date_envoi")%string then Some col_date_envoi
  else if (name =? "notes")%string then Some col_notes
  else if (name =? "created_at")%string then Some col_created_at
  else None.

Section HideColumns.
Context {PS : PyStr} {RE : RegexEngine}.

(** [hide_columns]: [hidden] are the columns the view hides.  The proxy
    index of the cell in row 0 is invalid, with column -1, when the model
    has no row 0 or the proxy filters it out; hiding column -1 does
    nothing. *)
Definition hide_columns (p : CandidatureFilterProxy) (rows : list row)
  (hidden : list column) (names : list string) : list column :=
  fold_left
    (fun h name =>
       match fieldIndex name with
       | Some c =>
           match rows with
           | r0 :: _ => if filterAcceptsRow p r0 then c :: h else h
           | [] => h
           end
       | None => h
       end)
    names hidden.
End HideColumns.

(** The part of the window [toggle_theme] works on. *)
Record theme := mktheme {
  dark_mode : bool;
  styleSheet : string;
  btn_theme_text : string
}.

Definition DARK_STYLE : string := "
                QMainWindow { background-color: #121212; color: #eee; }
                QWidget { background-color: #121212; color: #eee; }
                QLineEdit, QTextEdit, QComboBox, QDateEdit, QSpinBox {
                    background-color: #1e1e1e; color: #eee; border: 1px solid #444;
                }
                QTableView {
                    background-color: #1e1e1e;
                    alternate-background-color: #2a2a2a;
                    color: #eee;
                    gridline-color: #444;
                }
                QHeaderView::section {
                    background-color: #2a2a2a;
                    color: #eee;
                    padding: 4px;
                    border: 1px solid #444;
                }
            ".

Definition theme_init : theme := mktheme false "" "Mode sombre".

Definition toggle_theme (t : theme) : theme :=
  if negb (dark_mode t)
  then mktheme true DARK_STYLE "Mode clair"
  else mktheme false "" "Mode sombre".

(* ================================================================== *)
(** ** Reference notions the properties are stated against *)

(** [needle] occurs in [h] as a contiguous run of characters. *)
Fixpoint occurs_in (needle h : string) : bool :=
  String.prefix needle h ||
  match h with
  | EmptyString => false
  | String _ h' => occurs_in needle h'
  end.

(** A record is due soon between [today] and [limit] (calendar order):
    it is still to be applied for and its deadline, read as an ISO date,
    lies between the two dates, bounds included. *)
Definition due_soon (today limit : date) (r : row) : bool :=
  match statut r with
  | Some s => (s =? "À postuler")%string
  | None => false
  end &&
  match date_limite r with
  | Some x =>
      match date_of_iso x with
      | Some dl => date_leb today dl && date_leb dl limit
      | None => false
      end
  | None => false
  end.

(** Every deadline stored in the table is an ISO date. *)
Definition iso_deadlines (rows : list row) : Prop :=
  forall r x, In r rows -> date_limite r = Some x -> date_of_iso x <> None.

(** None of the optional text cells holds the empty string. *)
Definition no_empty_text (r : row) : Prop :=
  numero r <> Some "" /\ structure r <> Some "" /\ date_limite r <> Some ""
  /\ priorite r <> Some "" /\ canal_envoi r <> Some "" /\ statut r <> Some ""
  /\ date_envoi r <> Some "" /\ notes r <> Some "".

(** The PRIMARY KEY constraint on [id]. *)
Definition unique_ids (d : db) : Prop := NoDup (map id (model_rows d)).

(** Lexicographic combination of two comparisons. *)
Definition lexc (c1 c2 : comparison) : comparison :=
  match c1 with
  | Eq => c2
  | _ => c1
  end.

(** The indicator of [w] shows the count at the date [now]: empty when
    the count is 0, else the alert text with the count and the window. *)
Definition indicator_reflects (w : MainWindow) (now : date) : Prop :=
  exists n,
    count_deadline_within (database w) (remind_days w) now = Returned n
    /\ (lbl_alerts w = "" <-> n = O)
    /\ ((0 < n)%nat -> lbl_alerts w = alert_text n (remind_days w)).



(** A record still to be applied for whose deadline is the text of
    [today]. *)
Definition due_today (today : date) (r : row) : bool :=
  match statut r with
  | Some s => (s =? "À postuler")%string
  | None => false
  end &&
  match date_limite r with
  | Some x => (x =? strftime today)%string
  | None => false
  end.

(** Days gone by in the year, counting 28 for each full month. *)
Definition month_progress (d : date) : Z := 28 * (month d - 1) + day d.

(** Every row of the table satisfies [P]. *)
Definition all_rows (P : row -> Prop) (d : db) : Prop :=
  forall r, In r (model_rows d) -> P r.

(** Ids are unique, positive and at most the AUTOINCREMENT counter. *)
Definition ids_ok (d : db) : Prop :=
  unique_ids d
  /\ (forall r, In r (model_rows d) -> 1 <= id r <= autoinc d)
  /\ 0 <= autoinc d.

(** From [d] to [d']: the counter does not go down, and every row of
    [d'] either carries the id and the creation time of a row of [d], or
    has an id above every id handed out in [d]. *)
Definition evolves (d d' : db) : Prop :=
  autoinc d <= autoinc d'
  /\ forall r', In r' (model_rows d') ->
       (exists r, In r (model_rows d) /\ id r = id r'
                  /\ created_at r = created_at r')
       \/ autoinc d < id r'.

(** The state of an accepted dialog as the widgets allow it: both date
    edits hold a valid date, each combo box shows one of its items. *)
Definition dialog_ok (dlg : CandidatureDialog) : Prop :=
  valid_date (w_date_limite dlg) = true
  /\ valid_date (w_date_envoi dlg) = true
  /\ In (w_priorite dlg) PRIORITES
  /\ In (w_canal dlg) CANAL_ENVOI
  /\ In (w_statut dlg) STATUTS.

(** The dialogs of an event are in such a state. *)
Definition event_dialog_ok (e : event) : Prop :=
  match e with
  | ev_add_record (Some dlg) _ | ev_edit_selected _ (Some dlg) => dialog_ok dlg
  | _ => True
  end.

(** No optional text of the payload is the empty string. *)
Definition payload_no_empty (p : payload) : Prop :=
  p_numero p <> Some "" /\ p_structure p <> Some ""
  /\ p_date_limite p <> Some "" /\ p_priorite p <> Some ""
  /\ p_canal_envoi p <> Some "" /\ p_statut p <> Some ""
  /\ p_date_envoi p <> Some "" /\ p_notes p <> Some "".

(** The deadline bound by the payload, if any, is an ISO date. *)
Definition payload_iso_deadline (p : payload) : Prop :=
  forall x, p_date_limite p = Some x -> date_of_iso x <> None.

(** The deadline of the row, if any, is an ISO date. *)
Definition row_iso_deadline (r : row) : Prop :=
  forall x, date_limite r = Some x -> date_of_iso x <> None.

(** The events whose payloads carry ISO deadlines: dialogs in a state the
    widgets allow, and files whose date_limite column is empty or ISO. *)
Definition event_iso_deadline (e : event) : Prop :=
  match e with
  | ev_add_record (Some dlg) _ | ev_edit_selected _ (Some dlg) => dialog_ok dlg
  | ev_import_csv _ (Some rows) =>
      forall r, In r rows -> payload_iso_deadline (import_payload r)
  | _ => True
  end.


Section EventNotions.
Context {PS : PyStr}.
Variable Q : payload -> Prop.

(** The payloads an event hands to the store satisfy [Q]. *)
Definition event_payloads (e : event) : Prop :=
  match e with
  | ev_add_record (Some dlg) _ | ev_edit_selected _ (Some dlg) =>
      forall p, get_data dlg = Some p -> Q p
  | ev_import_csv _ (Some rows) =>
      forall r, In r rows -> Q (import_payload r)
  | _ => True
  end.

End EventNotions.

Section StoreEffectOfEvents.
Context {PS : PyStr}.

(** What an event does to the store [d], told on a window that has just
    been built on it. *)
Definition store_effect (d : db) (e : event) : db :=
  match step (window_init d) e with
  | Returned w => database w
  | Raised _ => d
  end.

End StoreEffectOfEvents.

(** The deadline test of [filterAcceptsRow] on its own. *)
Definition deadline_passes (m : option string) (r : row) : bool :=
  match m, date_limite r with
  | Some m', Some d => negb (truthy m' && (truthy d && (m' <? d)%string))
  | _, _ => true
  end.

(* ================================================================== *)
(** ** Sample data *)

Definition noon (_ : nat) : string := "2025-01-08 12:00:00".

Definition jan8 : date := mkdate 2025 1 8.
Definition jan11 : date := mkdate 2025 1 11.

(** A record with only a title. *)
Definition titled (i : Z) (t : string) : row :=
  mkrow i None t None None None None None None None "2025-01-01 00:00:00".

(** A row of a CSV file with an id and a title only. *)
Definition csv_id_titre (i t : string) : csv_row :=
  fun c => match c with
           | col_id => Some i
           | col_titre => Some t
           | _ => None
           end.

(** A store with one record whose numero is the empty string. *)
Definition empty_numero_db : db :=
  mkdb (Some [mkrow 1 (Some "") "Dev" None None None None None None None
                "2025-01-01 00:00:00"]) 1.

(** A store with one complete record. *)
Definition one_record_db : db :=
  mkdb (Some [mkrow 1 (Some "A-12") "Dev" (Some "ACME") (Some "2025-01-10")
                (Some "Moyenne") (Some "Email") (Some "À postuler") None
                None "2025-01-01 00:00:00"]) 1.

(** The two records of the scenario: the same deadline, one still to be
    applied for, one already sent. *)
Definition scenario_rows : list row :=
  [mkrow 1 None "Dev" None (Some "2025-01-10") (Some "Moyenne") (Some "Email")
     (Some "À postuler") None None "2025-01-01 00:00:00";
   mkrow 2 None "Ops" None (Some "2025-01-10") (Some "Moyenne") (Some "Email")
     (Some "Envoyé") None None "2025-01-01 00:00:00"].

Definition scenario_db : db := mkdb (Some scenario_rows) 2.

(** A database file without the table. *)
Definition broken_db : db := mkdb None 0.

(** The dialog filled in for an application due on 2025-01-10. *)
Definition due_dialog : CandidatureDialog :=
  mkdialog "" "Dev" "" (mkdate 2025 1 10) "Moyenne" "Email" "À postuler"
    (mkdate 2025 1 8) "".

(** A short session on a new database: one record added through the
    dialog, a timer tick, a file with one row without id, the first
    record deleted. *)
Definition sample_events : list event :=
  [ev_add_record (Some due_dialog) "2025-01-08 12:00:00";
   ev_timeout jan8;
   ev_import_csv noon (Some [csv_id_titre "" "Ops"]);
   ev_delete_selected (Some O) true].

Definition sample_window : MainWindow :=
  mkwindow
    (mkdb (Some [mkrow 2 None "Ops" None None None None None None None
                   "2025-01-08 12:00:00"]) 2)
    3 (alert_text 1 3).

(** The payload read from [due_dialog]. *)
Definition due_payload : payload :=
  mkpayload None (Some "Dev") None (Some "2025-01-10") (Some "Moyenne")
    (Some "Email") (Some "À postuler") (Some "2025-01-08") None.

(** A store whose only record has an id that [scenario_db] does not
    know. *)
Definition foreign_db : db :=
  mkdb (Some [mkrow 5 None "Far" None None None None None None None
                "2024-12-31 00:00:00"]) 5.

(* ================================================================== *)
(** * Properties *)

(* ------------------------------------------------------------------ *)
(** ** The filter predicate *)

#[export] Instance MiniRegex_lawful : RegexLawful MiniRegex.
Proof.
  constructor; intros p h; cbn; unfold mini_isValid, mini_hasMatch.
  destruct (compile p); [discriminate | reflexivity].
Qed.


(** Case analysis on every condition of an [if] left in the goal. *)
Ltac case_ifs :=
  repeat match goal with
         | |- context [if ?b then _ else _] => destruct b; try reflexivity
         end.

Section FilterFacts.
Context {PS : PyStr} {RE : RegexEngine}.

Lemma filter_search_split (p : CandidatureFilterProxy) (r : row) :
  filterAcceptsRow p r =
  (negb (truthy (search_regex p)) || re_hasMatch (search_regex p) (hay r))
  && filterAcceptsRow (set_search_text p "") r.
Proof.
  unfold filterAcceptsRow, set_search_text.
  cbn [search_regex filter_statut filter_priorite max_deadline truthy andb].
  destruct (truthy (search_regex p)), (re_hasMatch (search_regex p) (hay r));
    reflexivity.
Qed.

(** C2 (amended): with a non-empty search text [s], the search
    sub-filter lets a record through exactly when [s], compiled as a
    caseless regular expression, matches somewhere in the space-joined,
    lower-cased fields numero, titre, structure, priorite, canal_envoi,
    statut and notes, an absent field counting as the empty string; the
    predicate is that test together with the remaining sub-filters. *)
Theorem search_subfilter_is_regex_match
  (p : CandidatureFilterProxy) (r : row) :
  truthy (search_regex p) = true ->
  filterAcceptsRow p r =
  re_hasMatch (search_regex p)
    (String.concat " "
       [lower (or_empty (numero r)); lower (titre r);
        lower (or_empty (structure r)); lower (or_empty (priorite r));
        lower (or_empty (canal_envoi r)); lower (or_empty (statut r));
        lower (or_empty (notes r))])
  && filterAcceptsRow (set_search_text p "") r.
Proof.
  intros Hs. rewrite filter_search_split, Hs.
  unfold hay, data; cbn [negb orb model_data].
  destruct (numero r), (structure r), (priorite r), (canal_envoi r),
    (statut r), (notes r); reflexivity.
Qed.


(** C10: the search text is a regular-expression pattern: when it is
    non-empty and not a valid pattern, no record gets through the
    filter, not even one whose fields contain the text itself. *)
Theorem invalid_pattern_rejects_all {L : RegexLawful RE}
  (p : CandidatureFilterProxy) (r : row) :
  truthy (search_regex p) = true ->
  re_isValid (search_regex p) = false ->
  filterAcceptsRow p r = false.
Proof.
  intros Hs Hv. rewrite filter_search_split, Hs.
  rewrite (re_invalid_no_match _ (hay r) Hv). reflexivity.
Qed.
End FilterFacts.

(** C2, as stated, fails: the pattern [a.c] lets the record titled [abc]
    through although [a.c] does not occur in its fields. *)
Lemma search_not_substring_test :
  filterAcceptsRow (set_search_text proxy_init "a.c") (titled 1 "abc") = true
  /\ occurs_in (lower "a.c") (hay (titled 1 "abc")) = false.
Proof. split; reflexivity. Qed.

Lemma search_subfilter_is_regex_match_witness :
  truthy (search_regex (set_search_text proxy_init "recom")) = true
  /\ filterAcceptsRow (set_search_text proxy_init "recom")
       (mkrow 1 None "Dev" None None None (Some "Recommandation") None None
          None "2025-01-01 00:00:00") = true.
Proof.
  split; [reflexivity|].
  rewrite (search_subfilter_is_regex_match
             (set_search_text proxy_init "recom")); reflexivity.
Defined.


Lemma invalid_pattern_rejects_all_witness :
  re_isValid "(" = false
  /\ occurs_in "(" (hay (titled 1 "f(x)")) = true
  /\ filterAcceptsRow (set_search_text proxy_init "(") (titled 1 "f(x)") = false.
Proof.
  split; [reflexivity|]. split; [reflexivity|].
  apply (invalid_pattern_rejects_all (set_search_text proxy_init "(")
           (titled 1 "f(x)")); reflexivity.
Defined.

(* ------------------------------------------------------------------ *)
(** ** Order of ISO texts and order of dates *)

Lemma compare_cons (a b : ascii) (s t : string) :
  (String a s ?= String b t)%string = lexc (Ascii.compare a b) (s ?= t)%string.
Proof. cbn. destruct (Ascii.compare a b); reflexivity. Qed.

Lemma N_of_digit (x : Z) : 0 <= x <= 9 -> N_of_ascii (digit x) = Z.to_N (48 + x).
Proof. intros Hx. unfold digit. apply N_ascii_embedding. lia. Qed.

Lemma compare_digit (a b : Z) :
  0 <= a <= 9 -> 0 <= b <= 9 -> Ascii.compare (digit a) (digit b) = (a ?= b).
Proof.
  intros Ha Hb. unfold Ascii.compare. rewrite !N_of_digit by assumption.
  destruct (Z.compare_spec a b) as [H|H|H];
    [apply N.compare_eq_iff | apply N.compare_lt_iff | apply N.compare_gt_iff];
    lia.
Qed.

Lemma lexc_digits (a1 a0 b1 b0 : Z) (c : comparison) :
  0 <= a0 <= 9 -> 0 <= b0 <= 9 ->
  lexc (a1 ?= b1) (lexc (a0 ?= b0) c) = lexc (10 * a1 + a0 ?= 10 * b1 + b0) c.
Proof.
  intros Ha Hb. unfold lexc.
  destruct (Z.compare_spec a1 b1), (Z.compare_spec a0 b0),
    (Z.compare_spec (10 * a1 + a0) (10 * b1 + b0));
    try reflexivity; lia.
Qed.

Lemma digit_low (a : Z) : 0 <= a mod 10 <= 9.
Proof. pose proof (Z.mod_pos_bound a 10); lia. Qed.

Lemma digit_high (a k : Z) : 0 < k -> 0 <= a < 10 * k -> 0 <= a / k <= 9.
Proof.
  intros Hk Ha. split; [apply Z.div_pos; lia|].
  assert (a / k < 10) by (apply Z.div_lt_upper_bound; lia). lia.
Qed.

Lemma compare_two_digits (a b : Z) (s t : string) :
  0 <= a < 100 -> 0 <= b < 100 ->
  (two_digits a ++ s ?= two_digits b ++ t)%string = lexc (a ?= b) (s ?= t)%string.
Proof.
  intros Ha Hb. unfold two_digits. cbn [append]. rewrite !compare_cons.
  rewrite (compare_digit (a / 10) (b / 10)) by (apply digit_high; lia).
  rewrite (compare_digit (a mod 10) (b mod 10)) by apply digit_low.
  rewrite lexc_digits by apply digit_low.
  rewrite <- !Z.div_mod by lia. reflexivity.
Qed.

Lemma compare_four_digits (a b : Z) (s t : string) :
  0 <= a < 10000 -> 0 <= b < 10000 ->
  (four_digits a ++ s ?= four_digits b ++ t)%string = lexc (a ?= b) (s ?= t)%string.
Proof.
  intros Ha Hb. unfold four_digits. cbn [append]. rewrite !compare_cons.
  rewrite (compare_digit (a / 1000) (b / 1000)) by (apply digit_high; lia).
  rewrite (compare_digit (a / 100 mod 10) (b / 100 mod 10)) by apply digit_low.
  rewrite (compare_digit (a / 10 mod 10) (b / 10 mod 10)) by apply digit_low.
  rewrite (compare_digit (a mod 10) (b mod 10)) by apply digit_low.
  rewrite !lexc_digits by apply digit_low.
  replace (10 * (10 * (10 * (a / 1000) + a / 100 mod 10) + a / 10 mod 10)
           + a mod 10) with a by (clear; Z.to_euclidean_division_equations; lia).
  replace (10 * (10 * (10 * (b / 1000) + b / 100 mod 10) + b / 10 mod 10)
           + b mod 10) with b by (clear; Z.to_euclidean_division_equations; lia).
  reflexivity.
Qed.

Lemma ascii_compare_refl (c : ascii) : Ascii.compare c c = Eq.
Proof. apply N.compare_refl. Qed.

Lemma append_empty_r (s : string) : s ++ "" = s.
Proof. induction s; cbn; [reflexivity | now rewrite IHs]. Qed.

Lemma compare_strftime (a b : date) :
  0 <= year a < 10000 -> 0 <= month a < 100 -> 0 <= day a < 100 ->
  0 <= year b < 10000 -> 0 <= month b < 100 -> 0 <= day b < 100 ->
  (strftime a ?= strftime b)%string = date_compare a b.
Proof.
  intros. unfold strftime, date_compare.
  rewrite compare_four_digits by assumption.
  cbn [append]. rewrite compare_cons, ascii_compare_refl. cbn [lexc].
  rewrite compare_two_digits by assumption.
  cbn [append]. rewrite compare_cons, ascii_compare_refl. cbn [lexc].
  rewrite <- (append_empty_r (two_digits (day a))).
  rewrite <- (append_empty_r (two_digits (day b))).
  rewrite compare_two_digits by assumption.
  unfold lexc; cbn.
  destruct (year a ?= year b), (month a ?= month b), (day a ?= day b);
    reflexivity.
Qed.

Lemma digit_value_inv (c : ascii) (v : Z) :
  digit_value c = Some v -> c = digit v /\ 0 <= v <= 9.
Proof.
  unfold digit_value.
  destruct ((48 <=? Z.of_N (N_of_ascii c)) && (Z.of_N (N_of_ascii c) <=? 57))
    eqn:E; [|discriminate].
  intros [= <-]. apply andb_prop in E as [E1 E2].
  apply Z.leb_le in E1, E2. split; [|lia].
  unfold digit.
  replace (48 + (Z.of_N (N_of_ascii c) - 48)) with (Z.of_N (N_of_ascii c)) by lia.
  now rewrite N2Z.id, ascii_N_embedding.
Qed.

Lemma Some_inj {A : Type} (x y : A) : Some x = Some y -> x = y.
Proof. congruence. Qed.

Lemma number_of_two (c1 c2 : ascii) (n : Z) :
  number_of [c1; c2] = Some n ->
  two_digits n = String c1 (String c2 EmptyString) /\ 0 <= n < 100.
Proof.
  unfold number_of; cbn [fold_left].
  destruct (digit_value c1) as [v1|] eqn:E1; [|discriminate].
  destruct (digit_value c2) as [v2|] eqn:E2; [|discriminate].
  intros Hn. apply Some_inj in Hn. subst n.
  apply digit_value_inv in E1 as [-> H1], E2 as [-> H2].
  split; [|lia]. unfold two_digits.
  replace ((10 * (10 * 0 + v1) + v2) / 10) with v1
    by (Z.to_euclidean_division_equations; lia).
  replace ((10 * (10 * 0 + v1) + v2) mod 10) with v2
    by (Z.to_euclidean_division_equations; lia).
  reflexivity.
Qed.

Lemma number_of_four (c1 c2 c3 c4 : ascii) (n : Z) :
  number_of [c1; c2; c3; c4] = Some n ->
  four_digits n = String c1 (String c2 (String c3 (String c4 EmptyString)))
  /\ 0 <= n < 10000.
Proof.
  unfold number_of; cbn [fold_left].
  destruct (digit_value c1) as [v1|] eqn:E1; [|discriminate].
  destruct (digit_value c2) as [v2|] eqn:E2; [|discriminate].
  destruct (digit_value c3) as [v3|] eqn:E3; [|discriminate].
  destruct (digit_value c4) as [v4|] eqn:E4; [|discriminate].
  intros Hn. apply Some_inj in Hn. subst n.
  apply digit_value_inv in E1 as [-> H1], E2 as [-> H2], E3 as [-> H3],
    E4 as [-> H4].
  split; [|lia]. unfold four_digits.
  set (n := 10 * (10 * (10 * (10 * 0 + v1) + v2) + v3) + v4).
  replace (n / 1000) with v1
    by (subst n; Z.to_euclidean_division_equations; lia).
  replace (n / 100 mod 10) with v2
    by (subst n; Z.to_euclidean_division_equations; lia).
  replace (n / 10 mod 10) with v3
    by (subst n; Z.to_euclidean_division_equations; lia).
  replace (n mod 10) with v4
    by (subst n; Z.to_euclidean_division_equations; lia).
  reflexivity.
Qed.

(** An ISO text that reads as the date [d] is the text printed for [d]. *)
Lemma date_of_iso_inv (s : string) (d : date) :
  date_of_iso s = Some d -> s = strftime d /\ valid_date d = true.
Proof.
  unfold date_of_iso.
  destruct s as [|y1 [|y2 [|y3 [|y4 [|s1 [|m1 [|m2 [|s2 [|d1 [|d2 [|x s]]]]]]]]]]];
    cbn [list_ascii_of_string]; try discriminate.
  destruct (Ascii.eqb s1 "-" && Ascii.eqb s2 "-") eqn:E; [|discriminate].
  apply andb_prop in E as [Ea Eb].
  apply Ascii.eqb_eq in Ea, Eb; subst s1 s2.
  destruct (number_of [y1; y2; y3; y4]) as [y|] eqn:Ey; [|discriminate].
  destruct (number_of [m1; m2]) as [m|] eqn:Em; [|discriminate].
  destruct (number_of [d1; d2]) as [dd|] eqn:Ed; [|discriminate].
  destruct (valid_date (mkdate y m dd)) eqn:Ev; [|discriminate].
  intros [= <-]. split; [|assumption].
  apply number_of_four in Ey as [Ey _].
  apply number_of_two in Em as [Em _], Ed as [Ed _].
  unfold strftime; cbn [year month day]. rewrite Ey, Em, Ed. reflexivity.
Qed.

Lemma valid_date_bounds (d : date) :
  valid_date d = true ->
  1 <= year d <= 9999 /\ 1 <= month d <= 12
  /\ 1 <= day d <= days_in_month (year d) (month d).
Proof.
  unfold valid_date, MINYEAR, MAXYEAR. intros H.
  repeat (apply andb_prop in H as [H ?]).
  repeat match goal with
         | H : (_ <=? _) = true |- _ => apply Z.leb_le in H
         end.
  lia.
Qed.

Lemma days_in_month_bounds (y m : Z) : 28 <= days_in_month y m <= 31.
Proof. unfold days_in_month. case_ifs; lia. Qed.

(** On valid dates the order of the printed texts is the calendar order. *)
Lemma leb_strftime (a b : date) :
  valid_date a = true -> valid_date b = true ->
  (strftime a <=? strftime b)%string = date_leb a b.
Proof.
  intros Ha Hb. apply valid_date_bounds in Ha, Hb.
  pose proof (days_in_month_bounds (year a) (month a)).
  pose proof (days_in_month_bounds (year b) (month b)).
  unfold String.leb, date_leb. rewrite compare_strftime by lia. reflexivity.
Qed.

Lemma string_leb_trans (s t u : string) :
  (s <=? t)%string = true -> (t <=? u)%string = true -> (s <=? u)%string = true.
Proof.
  revert t u. unfold String.leb.
  induction s as [|a s IH]; intros [|b t] [|c u]; cbn; try easy.
  unfold Ascii.compare.
  destruct (N.compare_spec (N_of_ascii a) (N_of_ascii b)) as [Hab|Hab|Hab],
    (N.compare_spec (N_of_ascii b) (N_of_ascii c)) as [Hbc|Hbc|Hbc],
    (N.compare_spec (N_of_ascii a) (N_of_ascii c)) as [Hac|Hac|Hac];
    try easy; try lia.
  apply IH.
Qed.

Lemma date_leb_iff (a b : date) :
  date_leb a b = true <->
  year a < year b
  \/ (year a = year b
      /\ (month a < month b \/ (month a = month b /\ day a <= day b))).
Proof.
  unfold date_leb, date_compare.
  destruct (Z.compare_spec (year a) (year b)),
    (Z.compare_spec (month a) (month b)),
    (Z.compare_spec (day a) (day b)); split; intros; try easy; lia.
Qed.

Lemma date_leb_refl (a : date) : date_leb a a = true.
Proof. apply date_leb_iff. lia. Qed.

Lemma date_leb_trans (a b c : date) :
  date_leb a b = true -> date_leb b c = true -> date_leb a c = true.
Proof. rewrite !date_leb_iff. lia. Qed.

Lemma next_day_later (d : date) : date_leb d (next_day d) = true.
Proof.
  apply date_leb_iff. unfold next_day.
  destruct (day d <? days_in_month (year d) (month d)); cbn; [lia|].
  destruct (month d <? 12) eqn:E; cbn; [apply Z.ltb_lt in E|]; lia.
Qed.

Lemma next_day_valid (d : date) :
  valid_date d = true -> year (next_day d) <= MAXYEAR ->
  valid_date (next_day d) = true.
Proof.
  intros Hv Hy. apply valid_date_bounds in Hv.
  unfold next_day in *.
  destruct (day d <? days_in_month (year d) (month d)) eqn:E1.
  - apply Z.ltb_lt in E1. unfold valid_date, MINYEAR, MAXYEAR; cbn.
    repeat (apply andb_true_intro; split);
      first [reflexivity | apply Z.leb_le; lia].
  - destruct (month d <? 12) eqn:E2.
    + apply Z.ltb_lt in E2.
      pose proof (days_in_month_bounds (year d) (month d + 1)).
      unfold valid_date, MINYEAR, MAXYEAR; cbn.
      repeat (apply andb_true_intro; split);
      first [reflexivity | apply Z.leb_le; lia].
    + pose proof (days_in_month_bounds (year d + 1) 1).
      unfold valid_date, MINYEAR, MAXYEAR in *; cbn in *.
      repeat (apply andb_true_intro; split);
      first [reflexivity | apply Z.leb_le; lia].
Qed.

Lemma timedelta_add_valid (n : nat) (d l : date) :
  valid_date d = true -> timedelta_add d n = Returned l ->
  valid_date l = true /\ date_leb d l = true.
Proof.
  revert d. induction n as [|n IH]; intros d Hv; cbn.
  - intros [= <-]. split; [assumption | apply date_leb_refl].
  - destruct (year (next_day d) <=? MAXYEAR) eqn:E; [|discriminate].
    apply Z.leb_le in E. intros H.
    apply IH in H as [H1 H2]; [|now apply next_day_valid].
    split; [assumption|].
    eapply date_leb_trans; [apply next_day_later | exact H2].
Qed.

Lemma timedelta_add_plus (n m : nat) (d : date) :
  timedelta_add d (n + m) = (l <- timedelta_add d n ;; timedelta_add l m).
Proof.
  revert d. induction n as [|n IH]; intros d; cbn; [reflexivity|].
  destruct (year (next_day d) <=? MAXYEAR); [apply IH | reflexivity].
Qed.

(** A shorter window ends no later, and is reached whenever the longer
    one is. *)
Lemma timedelta_add_mono (w1 w2 : nat) (d l2 : date) :
  valid_date d = true -> (w1 <= w2)%nat ->
  timedelta_add d w2 = Returned l2 ->
  exists l1, timedelta_add d w1 = Returned l1
             /\ valid_date l1 = true /\ valid_date l2 = true
             /\ date_leb l1 l2 = true.
Proof.
  intros Hv Hle H2.
  replace w2 with (w1 + (w2 - w1))%nat in H2 by lia.
  rewrite timedelta_add_plus in H2.
  destruct (timedelta_add d w1) as [l1|e] eqn:E1; [|discriminate].
  cbn in H2. exists l1.
  destruct (timedelta_add_valid _ _ _ Hv E1) as [V1 _].
  destruct (timedelta_add_valid _ _ _ V1 H2) as [V2 L].
  auto.
Qed.

Lemma filter_length_le {A : Type} (f g : A -> bool) (l : list A) :
  (forall x, In x l -> f x = true -> g x = true) ->
  (List.length (filter f l) <= List.length (filter g l))%nat.
Proof.
  induction l as [|x l IH]; intros H; cbn; [lia|].
  assert (IH' := IH (fun y Hy => H y (or_intror Hy))).
  destruct (f x) eqn:Ef.
  - rewrite (H x (or_introl eq_refl) Ef). cbn. lia.
  - destruct (g x); cbn; lia.
Qed.

Lemma filter_ext_in_eq {A : Type} (f g : A -> bool) (l : list A) :
  (forall x, In x l -> f x = g x) -> filter f l = filter g l.
Proof.
  induction l as [|x l IH]; intros H; cbn; [reflexivity|].
  rewrite (H x (or_introl eq_refl)), IH; [reflexivity|].
  intros y Hy. apply H. now right.
Qed.

(* ------------------------------------------------------------------ *)
(** ** The reminder count *)

Lemma due_row_is_due_soon (today limit : date) (rows : list row) (r : row) :
  iso_deadlines rows -> In r rows ->
  valid_date today = true -> valid_date limit = true ->
  due_row (strftime today) (strftime limit) r = due_soon today limit r.
Proof.
  intros Hiso Hin Ht Hl. unfold due_row, due_soon. f_equal.
  destruct (date_limite r) as [x|] eqn:Ex; [|reflexivity].
  specialize (Hiso r x Hin Ex).
  destruct (date_of_iso x) as [dl|] eqn:Ed; [|congruence].
  apply date_of_iso_inv in Ed as [-> Hv].
  now rewrite !leb_strftime.
Qed.

(** C3: for a table whose deadlines are ISO dates, a window of [days]
    days and a reference date [today] (a date from year 1000 on, whose
    window ends at the date [limit]), [count_deadline_within] returns
    the number of records with statut "À postuler" whose date_limite is
    present and lies between [today] and [limit] in calendar order, both
    bounds included. *)
Theorem count_deadline_within_counts
  (d : db) (rows : list row) (days : nat) (today limit : date) :
  table d = Some rows ->
  iso_deadlines rows ->
  valid_date today = true ->
  1000 <= year today ->
  timedelta_add today days = Returned limit ->
  count_deadline_within d days today
  = Returned (List.length (filter (due_soon today limit) rows)).
Proof.
  intros Ht Hiso Hv _ Hl. unfold count_deadline_within, sql_count_due.
  rewrite Hl, Ht. cbn [bind]. do 2 f_equal.
  apply filter_ext_in_eq. intros r Hin.
  destruct (timedelta_add_valid _ _ _ Hv Hl) as [Hvl _].
  now apply due_row_is_due_soon with (rows := rows).
Qed.

(** C8: for a fixed table and a fixed reference date (from year 1000
    on), the count does not decrease when the window grows: with
    [w1 <= w2], whenever the count for [w2] is computed, so is the one
    for [w1], and it is at most the one for [w2]. *)
Theorem count_deadline_within_monotone
  (d : db) (w1 w2 : nat) (today limit2 : date) :
  valid_date today = true ->
  1000 <= year today ->
  (w1 <= w2)%nat ->
  timedelta_add today w2 = Returned limit2 ->
  exists n1 n2,
    count_deadline_within d w1 today = Returned n1
    /\ count_deadline_within d w2 today = Returned n2
    /\ (n1 <= n2)%nat.
Proof.
  intros Hv _ Hle H2.
  destruct (timedelta_add_mono _ _ _ _ Hv Hle H2) as (l1 & H1 & V1 & V2 & L).
  unfold count_deadline_within, sql_count_due. rewrite H1, H2. cbn [bind].
  destruct (table d) as [rows|]; [|exists O, O; repeat split; lia].
  do 2 eexists; repeat split.
  apply filter_length_le. intros r _. unfold due_row.
  destruct (match statut r with
            | Some s => (s =? "À postuler")%string
            | None => false end); [|discriminate].
  destruct (date_limite r) as [x|]; [|discriminate]. cbn [andb].
  intros H. apply andb_prop in H as [Ha Hb]. rewrite Ha. cbn [andb].
  apply string_leb_trans with (t := strftime l1); [assumption|].
  now rewrite leb_strftime.
Qed.

(** C9: when the count query fails, [count_deadline_within] returns 0
    and does not raise, and [update_reminders] then leaves the indicator
    empty (the quiet state). *)
Theorem failed_count_is_quiet (w : MainWindow) (today limit : date) :
  timedelta_add today (remind_days w) = Returned limit ->
  sql_count_due (database w) (strftime today) (strftime limit) = None ->
  count_deadline_within (database w) (remind_days w) today = Returned O
  /\ update_reminders w today
     = Returned (mkwindow (database w) (remind_days w) "").
Proof.
  intros Hl Hq.
  assert (Hc : count_deadline_within (database w) (remind_days w) today
               = Returned O).
  { unfold count_deadline_within. rewrite Hl. cbn [bind]. now rewrite Hq. }
  split; [exact Hc|]. unfold update_reminders. rewrite Hc. reflexivity.
Qed.

Lemma alert_text_not_empty (n days : nat) : alert_text n days <> "".
Proof. unfold alert_text. cbn. discriminate. Qed.

Lemma update_reminders_reflects (w w' : MainWindow) (now : date) :
  update_reminders w now = Returned w' -> indicator_reflects w' now.
Proof.
  unfold update_reminders.
  destruct (count_deadline_within (database w) (remind_days w) now)
    as [n|e] eqn:E; [|discriminate].
  cbn [bind]. intros [= <-]. exists n. cbn [database remind_days lbl_alerts].
  split; [assumption|].
  destruct n as [|n]; cbn [Nat.ltb Nat.leb].
  - split; [tauto | lia].
  - split; [|reflexivity]. split; [|discriminate].
    intros H. now apply alert_text_not_empty in H.
Qed.

Section Reminders.
Context {PS : PyStr}.

(** C4 (amended): the indicator is evaluated anew on every timer tick
    (the timer is set to 60 seconds) and on every change of the window:
    right after either, it is empty exactly when the count is 0 and shows
    the count and the window when the count is positive.  Adding,
    editing, deleting and importing leave the indicator as it was. *)
Theorem reminders_evaluated_on_tick_and_window_change
  (w w' : MainWindow) (e : event) :
  step w e = Returned w' ->
  timer_interval = 60000
  /\ match e with
     | ev_timeout now => indicator_reflects w' now
     | ev_remind_days_changed days now =>
         remind_days w' = days /\ indicator_reflects w' now
     | _ => lbl_alerts w' = lbl_alerts w /\ remind_days w' = remind_days w
     end.
Proof.
  intros H. split; [reflexivity|].
  destruct e as [now|days now|dlg now|sel dlg|sel confirm|clock file];
    cbn [step] in H.
  - now apply update_reminders_reflects in H.
  - split; [|now apply update_reminders_reflects in H].
    unfold on_remind_days_changed, update_reminders in H.
    destruct (count_deadline_within _ _ _); [|discriminate].
    cbn in H. now injection H as <-.
  - injection H as <-. unfold add_record.
    destruct dlg as [f|]; [|tauto]. destruct (get_data f); tauto.
  - injection H as <-. unfold edit_selected.
    destruct sel as [k|]; [|tauto].
    destruct (nth_error _ k); [|tauto].
    destruct dlg as [f|]; [|tauto]. destruct (get_data f); tauto.
  - injection H as <-. unfold delete_selected.
    destruct sel as [k|]; [|tauto].
    destruct (nth_error _ k); [|tauto].
    destruct confirm; [|tauto]. destruct (sql_delete _ _); tauto.
  - destruct file; injection H as <-; tauto.
Qed.
End Reminders.

(* ------------------------------------------------------------------ *)
(** ** CSV import and export *)

Lemma uint_text_not_empty (u : uint) :
  u <> Nil -> truthy (NilEmpty.string_of_uint u) = true.
Proof. destruct u; cbn; congruence. Qed.

Lemma text_of_id_truthy (i : Z) : truthy (text_of_id i) = true.
Proof.
  unfold text_of_id. destruct i as [|p|p]; cbn; try reflexivity.
  pose proof (DecimalPos.Unsigned.to_uint_nonnil p) as H.
  destruct (Pos.to_uint p); [congruence | reflexivity ..].
Qed.

Lemma id_of_text_of_id (i : Z) : id_of_text (text_of_id i) = Some i.
Proof.
  unfold id_of_text, text_of_id.
  rewrite NilZero.isi.
  - cbn [option_map]. now rewrite DecimalZ.of_to.
  - destruct i as [|p|p]; cbn; try discriminate.
    intros [= H]. now apply DecimalPos.Unsigned.to_uint_nonnil in H.
  - destruct i as [|p|p]; cbn; try discriminate.
    intros [= H]. now apply DecimalPos.Unsigned.to_uint_nonnil in H.
Qed.

Lemma or_None_Some (s : string) : truthy s = true -> or_None (Some s) = Some s.
Proof. intros H; cbn; now rewrite H. Qed.

Lemma or_None_text (v : option string) :
  v <> Some "" -> or_None (Some (csv_text (text_value v))) = v.
Proof.
  destruct v as [[|c s]|]; cbn; congruence.
Qed.

Lemma unique_id_row (rows : list row) (r r' : row) :
  NoDup (map id rows) -> In r rows -> In r' rows -> id r' = id r -> r' = r.
Proof.
  induction rows as [|x rows IH]; cbn; [tauto|].
  intros Hnd [->|Hr] [->|Hr'] Hid; inversion_clear Hnd as [|? ? Hx Hnd'];
    try reflexivity.
  - exfalso. apply Hx. rewrite <- Hid. now apply in_map.
  - exfalso. apply Hx. rewrite Hid. now apply in_map.
  - now apply IH.
Qed.

Lemma map_id_on {A : Type} (f : A -> A) (l : list A) :
  (forall x, In x l -> f x = x) -> map f l = l.
Proof.
  induction l as [|x l IH]; intros H; cbn; [reflexivity|].
  rewrite (H x (or_introl eq_refl)), IH; [reflexivity|].
  intros y Hy. apply H. now right.
Qed.

Lemma existsb_id (rows : list row) (r : row) :
  In r rows -> existsb (fun r' => id r' =? id r) rows = true.
Proof.
  intros H. apply existsb_exists. exists r. split; [assumption|].
  apply Z.eqb_refl.
Qed.

(** Importing the exported line of a row of the table changes nothing. *)
Lemma import_exported_row (d : db) (now : string) (r : row) :
  unique_ids d -> In r (model_rows d) -> no_empty_text r ->
  import_row d now (exported r) = d.
Proof.
  intros Hu Hin (H1 & H2 & H3 & H4 & H5 & H6 & H7 & H8).
  unfold import_row, exported, import_payload. cbn [model_data csv_text].
  rewrite !or_None_text by assumption.
  rewrite or_None_Some by apply text_of_id_truthy.
  rewrite id_of_text_of_id.
  unfold unique_ids, model_rows in *.
  unfold _insert_row, sql_insert, sql_update.
  destruct d as [[rows|] a]; cbn [table autoinc] in *; [|contradiction].
  rewrite existsb_id by assumption. cbn [p_titre].
  destruct (titre r) as [|c t] eqn:Et; cbn [or_None truthy]; [reflexivity|].
  do 2 f_equal. apply map_id_on. intros r' Hr'.
  destruct (id r' =? id r) eqn:E; [|reflexivity].
  apply Z.eqb_eq in E. apply (unique_id_row rows r r' Hu Hin Hr') in E.
  subst r'. unfold set_row, new_row.
  destruct r; cbn in *. now rewrite Et.
Qed.

Lemma import_exported_rows (d : db) (l : list row) (clock : nat -> string) :
  unique_ids d ->
  (forall r, In r l -> In r (model_rows d) /\ no_empty_text r) ->
  import_csv d clock (map exported l) = d.
Proof.
  intros Hu. revert clock.
  induction l as [|r l IH]; intros clock H; cbn; [reflexivity|].
  destruct (H r (or_introl eq_refl)) as [Hin Hne].
  rewrite import_exported_row by assumption.
  apply IH. intros x Hx. apply H. now right.
Qed.

(** C5 (amended): when no optional text cell of the table holds the
    empty string, exporting every record and importing the file as it
    is, id column included, gives back the same store, created_at
    included. *)
Theorem export_import_roundtrip (d : db) (clock : nat -> string) :
  unique_ids d ->
  (forall r, In r (model_rows d) -> no_empty_text r) ->
  import_csv d clock (export_csv d) = d.
Proof.
  intros Hu Hne. unfold export_csv.
  apply (import_exported_rows d (model_rows d) clock Hu).
  intros r Hr. split; [assumption | now apply Hne].
Qed.

(** C5, as stated, fails: the empty numero comes back as an absent one. *)
Lemma roundtrip_loses_empty_text :
  import_csv empty_numero_db noon (export_csv empty_numero_db)
  <> empty_numero_db.
Proof. vm_compute. discriminate. Qed.

Lemma export_import_roundtrip_witness :
  import_csv one_record_db noon (export_csv one_record_db) = one_record_db.
Proof.
  apply (export_import_roundtrip one_record_db noon).
  - unfold unique_ids; cbn. constructor; [cbn; tauto | constructor].
  - intros r [<-|[]]. unfold no_empty_text; cbn. repeat split; discriminate.
Defined.

(** C1: a row of the file whose id column holds the decimal text of an
    integer that is the id of no record is not inserted: the UPDATE
    succeeds on zero rows, [exec()] is true and no INSERT follows, so the
    store is left as it was, where the claim has the row inserted. *)
Theorem import_unknown_id_inserts_nothing
  (d : db) (rows : list row) (clock : nat -> string) (rid : string) (i : Z)
  (r : csv_row) :
  table d = Some rows ->
  r col_id = Some rid -> truthy rid = true -> id_of_text rid = Some i ->
  existsb (fun x => id x =? i) rows = false ->
  import_csv d clock [r] = d.
Proof.
  intros Ht Hr Hrid Hi Hex. cbn [import_csv]. unfold import_row, sql_update.
  rewrite Hr, (or_None_Some _ Hrid), Hi, Ht, Hex. reflexivity.
Qed.

Lemma import_unknown_id_inserts_nothing_witness :
  import_csv ensure_database noon [csv_id_titre "7" "Dev"] = ensure_database.
Proof.
  apply (import_unknown_id_inserts_nothing ensure_database [] noon "7" 7
           (csv_id_titre "7" "Dev"));
    reflexivity.
Defined.

(** What the loop does hold to: a row without id is handed to
    [_insert_row], and so is a row whose UPDATE fails. *)
Lemma import_row_without_id (d : db) (now : string) (r : csv_row) :
  or_None (r col_id) = None ->
  import_row d now r = _insert_row d now (import_payload r).
Proof. intros H. unfold import_row. now rewrite H. Qed.

Lemma import_row_update_fails (d : db) (now rid : string) (r : csv_row) :
  or_None (r col_id) = Some rid ->
  sql_update d (id_of_text rid) (import_payload r) = None ->
  import_row d now r = _insert_row d now (import_payload r).
Proof. intros H Hu. unfold import_row. now rewrite H, Hu. Qed.

(* ------------------------------------------------------------------ *)
(** ** Titles in the store *)










Section Titles.
Context {PS : PyStr}.




End Titles.



(* ------------------------------------------------------------------ *)
(** ** Runs on sample data *)

Lemma scenario_iso : iso_deadlines scenario_rows.
Proof.
  intros r x [<-|[<-|[]]] [= <-]; vm_compute; discriminate.
Qed.

Lemma count_deadline_within_counts_witness :
  count_deadline_within scenario_db 3 jan8 = Returned 1%nat.
Proof.
  rewrite (count_deadline_within_counts scenario_db scenario_rows 3 jan8 jan11
             eq_refl scenario_iso eq_refl ltac:(cbn; lia) eq_refl).
  reflexivity.
Defined.

Lemma count_deadline_within_monotone_witness :
  exists n1 n2,
    count_deadline_within scenario_db 1 jan8 = Returned n1
    /\ count_deadline_within scenario_db 3 jan8 = Returned n2
    /\ (n1 <= n2)%nat.
Proof.
  apply (count_deadline_within_monotone scenario_db 1 3 jan8 jan11 eq_refl
           ltac:(cbn; lia) ltac:(lia) eq_refl).
Defined.

Lemma failed_count_is_quiet_witness :
  count_deadline_within broken_db 3 jan8 = Returned O
  /\ update_reminders (mkwindow broken_db 3 "old") jan8
     = Returned (mkwindow broken_db 3 "").
Proof.
  apply (failed_count_is_quiet (mkwindow broken_db 3 "old") jan8 jan11
           eq_refl eq_refl).
Defined.

Lemma reminders_evaluated_on_tick_and_window_change_witness :
  indicator_reflects (mkwindow scenario_db 3 (alert_text 1 3)) jan8.
Proof.
  apply (proj2 (reminders_evaluated_on_tick_and_window_change
                  (window_init scenario_db)
                  (mkwindow scenario_db 3 (alert_text 1 3))
                  (ev_timeout jan8) eq_refl)).
Defined.

(** C4, as stated, fails: after a tick on the empty store and the
    addition of a record due in two days, one record is due soon and the
    indicator is still empty. *)
Lemma indicator_stale_after_add :
  match run (window_init ensure_database)
          [ev_timeout jan8; ev_add_record (Some due_dialog) "2025-01-08 12:00:00"]
  with
  | Returned w =>
      lbl_alerts w = ""
      /\ count_deadline_within (database w) (remind_days w) jan8
         = Returned 1%nat
  | Raised _ => False
  end.
Proof. split; reflexivity. Qed.

(* ================================================================== *)
(** * Further properties *)

(* ------------------------------------------------------------------ *)
(** ** The filter as a conjunction of its sub-filters *)

Lemma string_ltb_not_leb (a b : string) : (a <? b)%string = negb (b <=? a)%string.
Proof.
  unfold String.ltb, String.leb. rewrite (String.compare_antisym a b).
  destruct (b ?= a)%string; reflexivity.
Qed.

Lemma strftime_truthy (d : date) : truthy (strftime d) = true.
Proof. reflexivity. Qed.

Section FilterConjunction.
Context {PS : PyStr} {RE : RegexEngine}.

Lemma filter_deadline_split (p : CandidatureFilterProxy) (r : row) :
  filterAcceptsRow p r
  = filterAcceptsRow (set_max_deadline p None) r
    && deadline_passes (max_deadline p) r.
Proof.
  unfold filterAcceptsRow, set_max_deadline, deadline_passes.
  cbn [search_regex filter_statut filter_priorite max_deadline model_data].
  destruct (max_deadline p) as [m|], (date_limite r) as [d|];
    cbn [text_value as_text andb];
    try destruct (truthy m); try destruct (truthy d);
    try destruct (m <? d)%string; cbn [andb negb]; case_ifs.
Qed.

(** X1: filters only restrict.  A record that the proxy lets through
    is still let through after any one of the four filters is cleared
    (empty search text, "(Tous)", "(Toutes)", no maximum deadline); and
    once all four are cleared every record is shown, whatever the proxy
    held before. *)
Theorem clearing_filters_shows_more
  (p : CandidatureFilterProxy) (r : row) :
  filterAcceptsRow p r = true ->
  filterAcceptsRow (set_search_text p "") r = true
  /\ filterAcceptsRow (set_filter_statut p (Some "(Tous)")) r = true
  /\ filterAcceptsRow (set_filter_priorite p (Some "(Toutes)")) r = true
  /\ filterAcceptsRow (set_max_deadline p None) r = true
  /\ (forall q r',
        filterAcceptsRow
          (set_max_deadline
             (set_filter_priorite
                (set_filter_statut (set_search_text q "") (Some "(Tous)"))
                (Some "(Toutes)"))
             None) r' = true).
Proof.
  unfold filterAcceptsRow, set_search_text, set_filter_statut,
    set_filter_priorite, set_max_deadline.
  cbn [search_regex filter_statut filter_priorite max_deadline truthy andb
       negb String.eqb Ascii.eqb Bool.eqb].
  intros H. repeat split; try reflexivity; revert H;
    repeat match goal with
           | |- context [if ?b then _ else _] => destruct b
           end;
    intros; first [reflexivity | discriminate].
Qed.

(** X2: when the maximum deadline is the text of the date [m] chosen in
    the date edit and the record's date_limite is the ISO text of the
    date [d], the deadline sub-filter lets the record through exactly
    when [d] is not after [m] in the calendar. *)
Theorem max_deadline_is_chronological
  (p : CandidatureFilterProxy) (r : row) (m d : date) :
  valid_date m = true -> valid_date d = true ->
  date_limite r = Some (strftime d) ->
  filterAcceptsRow (set_max_deadline p (Some (strftime m))) r
  = filterAcceptsRow (set_max_deadline p None) r && date_leb d m.
Proof.
  intros Hm Hd Hr. rewrite filter_deadline_split. f_equal.
  unfold deadline_passes, set_max_deadline; cbn [max_deadline].
  rewrite Hr, !strftime_truthy. cbn [andb].
  now rewrite string_ltb_not_leb, negb_involutive, leb_strftime.
Qed.

(** X3: a later maximum deadline never hides a record that an earlier,
    non-empty one lets through. *)
Theorem later_max_deadline_shows_more
  (p : CandidatureFilterProxy) (r : row) (m1 m2 : string) :
  truthy m1 = true -> (m1 <=? m2)%string = true ->
  filterAcceptsRow (set_max_deadline p (Some m1)) r = true ->
  filterAcceptsRow (set_max_deadline p (Some m2)) r = true.
Proof.
  intros Ht Hle.
  rewrite (filter_deadline_split (set_max_deadline p (Some m1))).
  rewrite (filter_deadline_split (set_max_deadline p (Some m2))).
  intros H. apply andb_prop in H as [Ha Hb].
  apply andb_true_intro; split; [exact Ha|].
  unfold deadline_passes, set_max_deadline in *; cbn [max_deadline] in *.
  destruct (date_limite r) as [d|]; [|reflexivity].
  rewrite Ht in Hb. cbn [andb] in Hb.
  destruct (truthy m2); [|reflexivity].
  destruct (truthy d); [|reflexivity]. cbn [andb] in *.
  rewrite string_ltb_not_leb, negb_involutive in *.
  eapply string_leb_trans; eassumption.
Qed.
End FilterConjunction.

Lemma clearing_filters_shows_more_witness :
  filterAcceptsRow
    (set_max_deadline (set_filter_statut proxy_init (Some "Envoyé")) None)
    (mkrow 2 None "Ops" None (Some "2025-01-10") (Some "Moyenne") (Some "Email")
       (Some "Envoyé") None None "2025-01-01 00:00:00") = true.
Proof.
  apply (clearing_filters_shows_more (PS := AsciiStr) (RE := MiniRegex)
           (set_max_deadline (set_filter_statut proxy_init (Some "Envoyé"))
              (Some "2025-01-31"))
           (mkrow 2 None "Ops" None (Some "2025-01-10") (Some "Moyenne")
              (Some "Email") (Some "Envoyé") None None "2025-01-01 00:00:00")
           eq_refl).
Defined.

Lemma max_deadline_is_chronological_witness :
  filterAcceptsRow (set_max_deadline proxy_init (Some "2025-01-31"))
    (mkrow 1 None "Dev" None (Some "2025-02-01") None None None None None
       "2025-01-01 00:00:00") = false.
Proof.
  apply (max_deadline_is_chronological proxy_init
           (mkrow 1 None "Dev" None (Some "2025-02-01") None None None None
              None "2025-01-01 00:00:00")
           (mkdate 2025 1 31) (mkdate 2025 2 1) eq_refl eq_refl eq_refl).
Defined.

Lemma later_max_deadline_shows_more_witness :
  filterAcceptsRow (set_max_deadline proxy_init (Some "2025-03-31"))
    (mkrow 1 None "Dev" None (Some "2025-02-01") None None None None None
       "2025-01-01 00:00:00") = true.
Proof.
  apply (later_max_deadline_shows_more proxy_init
           (mkrow 1 None "Dev" None (Some "2025-02-01") None None None None
              None "2025-01-01 00:00:00")
           "2025-02-28" "2025-03-31" eq_refl eq_refl eq_refl).
Defined.

(* ------------------------------------------------------------------ *)
(** ** The reminder: window of zero days, exceptions, the store *)

Lemma string_leb_refl (s : string) : (s <=? s)%string = true.
Proof. destruct (String.leb_total s s); assumption. Qed.

Lemma between_same (s x : string) :
  (s <=? x)%string && (x <=? s)%string = (x =? s)%string.
Proof.
  destruct (String.eqb_spec x s) as [->|Hne].
  - now rewrite string_leb_refl.
  - destruct (s <=? x)%string eqn:E1, (x <=? s)%string eqn:E2;
      try reflexivity.
    exfalso. apply Hne. now apply String.leb_antisym.
Qed.

(** X4: with a window of 0 days the count is the number of records
    with statut "À postuler" whose date_limite is exactly the text of
    the current date; no date arithmetic can fail. *)
Theorem zero_window_counts_today (d : db) (rows : list row) (today : date) :
  table d = Some rows ->
  count_deadline_within d 0 today
  = Returned (List.length (filter (due_today today) rows)).
Proof.
  intros Ht. unfold count_deadline_within, sql_count_due.
  cbn [timedelta_add bind]. rewrite Ht. do 2 f_equal.
  apply filter_ext_in_eq. intros r _. unfold due_row, due_today. f_equal.
  destruct (date_limite r) as [x|]; [apply between_same | reflexivity].
Qed.

Lemma zero_window_counts_today_witness :
  count_deadline_within scenario_db 0 (mkdate 2025 1 10) = Returned 1%nat.
Proof.
  rewrite (zero_window_counts_today scenario_db scenario_rows
             (mkdate 2025 1 10) eq_refl).
  reflexivity.
Defined.

Lemma next_day_progress (d : date) :
  valid_date d = true ->
  (year (next_day d) = year d
   /\ month_progress (next_day d) <= month_progress d + 1
   /\ month_progress d < 339)
  \/ (year (next_day d) = year d + 1
      /\ month_progress (next_day d) = 1 /\ month_progress d = 339).
Proof.
  intros Hv. apply valid_date_bounds in Hv.
  pose proof (days_in_month_bounds (year d) (month d)) as Hb.
  unfold next_day, month_progress.
  destruct (day d <? days_in_month (year d) (month d)) eqn:E1.
  - apply Z.ltb_lt in E1. left. cbn [year month day]. lia.
  - apply Z.ltb_ge in E1. destruct (month d <? 12) eqn:E2.
    + apply Z.ltb_lt in E2. left. cbn [year month day]. lia.
    + apply Z.ltb_ge in E2. right. cbn [year month day].
      assert (Hm : month d = 12) by lia. rewrite Hm in *.
      change (days_in_month (year d) 12) with 31 in *. lia.
Qed.

Lemma timedelta_add_last_year (n : nat) (d : date) :
  valid_date d = true -> year d <= MAXYEAR ->
  month_progress d + Z.of_nat n <= 339 ->
  exists l, timedelta_add d n = Returned l.
Proof.
  revert d. induction n as [|n IH]; intros d Hv Hy Hp; cbn [timedelta_add].
  - now exists d.
  - destruct (next_day_progress d Hv) as [(H1 & H2 & H3)|(H1 & H2 & H3)];
      [|lia].
    assert (Hle : year (next_day d) <= MAXYEAR) by lia.
    destruct (year (next_day d) <=? MAXYEAR) eqn:E;
      [|apply Z.leb_gt in E; lia].
    apply IH; [now apply next_day_valid | assumption | lia].
Qed.

(** Before the last year of the calendar, a window of up to 337 days
    never runs past it. *)
Lemma timedelta_add_returns (n : nat) (d : date) :
  valid_date d = true -> year d < MAXYEAR -> (n <= 337)%nat ->
  exists l, timedelta_add d n = Returned l.
Proof.
  revert d. induction n as [|n IH]; intros d Hv Hy Hn; cbn [timedelta_add].
  - now exists d.
  - destruct (next_day_progress d Hv) as [(H1 & H2 & H3)|(H1 & H2 & H3)].
    + destruct (year (next_day d) <=? MAXYEAR) eqn:E;
        [|apply Z.leb_gt in E; lia].
      apply IH; [apply next_day_valid; [assumption | lia] | lia | lia].
    + destruct (year (next_day d) <=? MAXYEAR) eqn:E;
        [|apply Z.leb_gt in E; lia].
      apply timedelta_add_last_year;
        [apply next_day_valid; [assumption | lia] | lia | lia].
Qed.

(** X5: before year 9999 and for a window within the range 0..60 of the
    spin box, the timer callback and the spin-box callback return: they
    raise nothing, leave the store alone and keep or set the window. *)
Theorem reminder_callbacks_return (w : MainWindow) (days : nat) (now : date) :
  valid_date now = true -> year now < MAXYEAR ->
  (remind_days w <= 60)%nat -> (days <= 60)%nat ->
  (exists w', update_reminders w now = Returned w'
              /\ database w' = database w /\ remind_days w' = remind_days w)
  /\ (exists w', on_remind_days_changed w days now = Returned w'
                 /\ database w' = database w /\ remind_days w' = days).
Proof.
  intros Hv Hy Hr Hd.
  assert (G : forall v : MainWindow, (remind_days v <= 60)%nat ->
            exists w', update_reminders v now = Returned w'
                       /\ database w' = database v
                       /\ remind_days w' = remind_days v).
  { intros v Hv60.
    destruct (timedelta_add_returns (remind_days v) now Hv Hy) as [l Hl];
      [lia|].
    unfold update_reminders, count_deadline_within. rewrite Hl. cbn [bind].
    destruct (sql_count_due _ _ _); cbn [bind]; eexists; repeat split. }
  split; [now apply G|].
  unfold on_remind_days_changed.
  destruct (G (mkwindow (database w) days (lbl_alerts w)) Hd)
    as (w' & H1 & H2 & H3).
  exists w'. auto.
Qed.

Lemma reminder_callbacks_return_witness :
  (exists w', update_reminders (window_init scenario_db) jan8 = Returned w'
              /\ database w' = scenario_db /\ remind_days w' = 3%nat)
  /\ (exists w', on_remind_days_changed (window_init scenario_db) 60 jan8
                 = Returned w'
                 /\ database w' = scenario_db /\ remind_days w' = 60%nat).
Proof.
  apply (reminder_callbacks_return (window_init scenario_db) 60 jan8 eq_refl
           eq_refl ltac:(cbn; lia) ltac:(lia)).
Defined.

(* ------------------------------------------------------------------ *)
(** ** Invariants of the store along a run *)

Section RowInvariant.
Variable P : row -> Prop.
Variable Q : payload -> Prop.
Hypothesis new_row_P : forall i now t p, Q p -> P (new_row i now t p).

Lemma sql_insert_all_rows (d d' : db) (now : string) (p : payload) :
  all_rows P d -> Q p -> sql_insert d now p = Some d' -> all_rows P d'.
Proof.
  unfold sql_insert, all_rows, model_rows. intros Hd Hp.
  destruct (table d) as [rows|]; [|discriminate].
  destruct (p_titre p) as [t|]; [|discriminate].
  intros [= <-] r; cbn [table]. rewrite in_app_iff.
  intros [Hr|[<-|[]]]; [now apply Hd | now apply new_row_P].
Qed.

Lemma insert_row_all_rows (d : db) (now : string) (p : payload) :
  all_rows P d -> Q p -> all_rows P (_insert_row d now p).
Proof.
  intros Hd Hp. unfold _insert_row.
  destruct (sql_insert d now p) eqn:E; [|assumption].
  eapply sql_insert_all_rows; eassumption.
Qed.

Lemma sql_update_all_rows (d d' : db) (k : option Z) (p : payload) :
  all_rows P d -> Q p -> sql_update d k p = Some d' -> all_rows P d'.
Proof.
  unfold sql_update, all_rows, model_rows. intros Hd Hp.
  destruct (table d) as [rows|] eqn:Et; [|discriminate].
  destruct k as [i|]; [|intros [= <-]; now rewrite Et].
  destruct (existsb _ rows); [|intros [= <-]; now rewrite Et].
  destruct (p_titre p) as [t|]; [|discriminate].
  intros [= <-] r; cbn [table]. rewrite in_map_iff.
  intros (x & Hx & Hin). destruct (id x =? i); subst r; [|now apply Hd].
  now apply new_row_P.
Qed.

Lemma sql_delete_all_rows (d d' : db) (i : Z) :
  all_rows P d -> sql_delete d i = Some d' -> all_rows P d'.
Proof.
  unfold sql_delete, all_rows, model_rows. intros Hd.
  destruct (table d) as [rows|]; [|discriminate].
  intros [= <-] r; cbn [table]. rewrite filter_In. intros [Hr _].
  now apply Hd.
Qed.

Lemma import_row_all_rows (d : db) (now : string) (r : csv_row) :
  all_rows P d -> Q (import_payload r) -> all_rows P (import_row d now r).
Proof.
  intros Hd Hp. unfold import_row.
  destruct (or_None (r col_id)) as [rid|];
    [|now apply insert_row_all_rows].
  destruct (sql_update d (id_of_text rid) (import_payload r)) eqn:E.
  - eapply sql_update_all_rows; eassumption.
  - now apply insert_row_all_rows.
Qed.

Lemma import_csv_all_rows (rows : list csv_row) (d : db)
  (clock : nat -> string) :
  all_rows P d -> (forall r, In r rows -> Q (import_payload r)) ->
  all_rows P (import_csv d clock rows).
Proof.
  revert d clock. induction rows as [|r rows IH]; intros d clock Hd Hq; cbn;
    [assumption|].
  apply IH; [|intros x Hx; apply Hq; now right].
  apply import_row_all_rows; [assumption | apply Hq; now left].
Qed.

Context {PS : PyStr}.

Lemma update_reminders_database (w w' : MainWindow) (now : date) :
  update_reminders w now = Returned w' ->
  database w' = database w /\ remind_days w' = remind_days w.
Proof.
  unfold update_reminders.
  destruct (count_deadline_within _ _ _); [|discriminate].
  cbn. now intros [= <-].
Qed.

Lemma step_all_rows (w w' : MainWindow) (e : event) :
  all_rows P (database w) -> event_payloads Q e -> step w e = Returned w' ->
  all_rows P (database w').
Proof.
  intros Hw He.
  destruct e as [now|days now|dlg now|sel dlg|sel confirm|clock file];
    cbn [step].
  - intros H. apply update_reminders_database in H as [-> _]. assumption.
  - intros H. apply update_reminders_database in H as [-> _]. assumption.
  - intros [= <-]. unfold add_record.
    destruct dlg as [f|]; [|assumption].
    destruct (get_data f) as [p|] eqn:E; [|assumption]. cbn.
    apply insert_row_all_rows; [assumption | now apply He].
  - intros [= <-]. unfold edit_selected.
    destruct sel as [k|]; [|assumption].
    destruct (nth_error _ k) as [r|]; [|assumption].
    destruct dlg as [f|]; [|assumption].
    destruct (get_data f) as [p|] eqn:E; [|assumption]. cbn.
    unfold _update_row. destruct (id r =? 0); [assumption|].
    destruct (sql_update _ _ p) eqn:Eu; [|assumption].
    cbn in He.
    eapply sql_update_all_rows; [exact Hw | exact (He p E) | exact Eu].
  - intros [= <-]. unfold delete_selected.
    destruct sel as [k|]; [|assumption].
    destruct (nth_error _ k) as [r|]; [|assumption].
    destruct confirm; [|assumption].
    destruct (sql_delete _ _) eqn:Ed; [|assumption]. cbn.
    eapply sql_delete_all_rows; eassumption.
  - destruct file as [rows|]; intros [= <-]; [|assumption]. cbn.
    apply import_csv_all_rows; [assumption | exact He].
Qed.

Lemma run_all_rows (es : list event) (w w' : MainWindow) :
  all_rows P (database w) -> Forall (event_payloads Q) es ->
  run w es = Returned w' -> all_rows P (database w').
Proof.
  revert w. induction es as [|e es IH]; intros w Hw Hes; cbn.
  - now intros [= <-].
  - destruct (step w e) as [w1|x] eqn:E; [|discriminate]. cbn [bind].
    inversion_clear Hes as [|? ? He Hes'].
    apply IH; [|assumption]. eapply step_all_rows; eassumption.
Qed.
End RowInvariant.

(* ------------------------------------------------------------------ *)
(** ** Identifiers and creation times *)

Lemma fold_max_ge (l : list Z) (a : Z) : a <= fold_left Z.max l a.
Proof.
  revert a. induction l as [|x l IH]; intros a; cbn; [lia|].
  specialize (IH (Z.max a x)). lia.
Qed.

Lemma fold_max_bounded (l : list Z) (a : Z) :
  (forall x, In x l -> x <= a) -> fold_left Z.max l a = a.
Proof.
  revert a. induction l as [|x l IH]; intros a H; cbn; [reflexivity|].
  rewrite Z.max_l by (apply H; now left).
  apply IH. intros y Hy. apply H. now right.
Qed.

Lemma NoDup_snoc {A : Type} (l : list A) (x : A) :
  NoDup l -> ~ In x l -> NoDup (l ++ [x]).
Proof.
  induction l as [|y l IH]; intros Hnd Hx; cbn.
  - constructor; [tauto | constructor].
  - inversion_clear Hnd as [|? ? Hy Hl]. constructor.
    + rewrite in_app_iff. cbn in *. intros [H|[H|[]]]; [tauto|].
      apply Hx. now left.
    + apply IH; [assumption|]. intros H. apply Hx. now right.
Qed.

Lemma NoDup_map_filter {A B : Type} (f : A -> B) (g : A -> bool) (l : list A) :
  NoDup (map f l) -> NoDup (map f (filter g l)).
Proof.
  induction l as [|x l IH]; cbn; intros H; [constructor|].
  inversion_clear H as [|? ? Hx Hl].
  destruct (g x); cbn; [|now apply IH].
  constructor; [|now apply IH].
  rewrite in_map_iff in *. intros (y & Hy & Hin). apply Hx.
  exists y. split; [assumption|]. apply filter_In in Hin. tauto.
Qed.

Lemma map_id_set_row (i : Z) (t : string) (p : payload) (rows : list row) :
  map id (map (fun r => if id r =? i then set_row r t p else r) rows)
  = map id rows.
Proof.
  rewrite map_map. apply map_ext. intros r.
  destruct (id r =? i); reflexivity.
Qed.

Lemma sql_insert_ids_ok (d d' : db) (now : string) (p : payload) :
  ids_ok d -> sql_insert d now p = Some d' -> ids_ok d'.
Proof.
  unfold ids_ok, unique_ids, sql_insert, model_rows.
  intros (Hu & Hb & Ha).
  destruct (table d) as [rows|]; [|discriminate].
  destruct (p_titre p) as [t|]; [|discriminate].
  intros H; apply Some_inj in H; subst d'; cbn [table autoinc].
  unfold next_id.
  rewrite fold_max_bounded
    by (intros x Hx; apply in_map_iff in Hx as (r & <- & Hr);
        now apply Hb).
  split; [|split; [|lia]].
  - rewrite map_app. cbn [map id new_row]. apply NoDup_snoc; [assumption|].
    rewrite in_map_iff. intros (r & Hr & Hin). apply Hb in Hin.
    cbn [id new_row] in Hr. lia.
  - intros r. rewrite in_app_iff. intros [Hr|[<-|[]]];
      [apply Hb in Hr; lia | cbn [id new_row]; lia].
Qed.

Lemma sql_update_ids_ok (d d' : db) (k : option Z) (p : payload) :
  ids_ok d -> sql_update d k p = Some d' -> ids_ok d'.
Proof.
  unfold ids_ok, unique_ids, sql_update, model_rows.
  intros (Hu & Hb & Ha).
  destruct (table d) as [rows|] eqn:Et; [|discriminate].
  destruct k as [i|]; [|intros [= <-]; now rewrite Et].
  destruct (existsb _ rows); [|intros [= <-]; now rewrite Et].
  destruct (p_titre p) as [t|]; [|discriminate].
  intros [= <-]; cbn [table autoinc]. rewrite map_id_set_row.
  split; [assumption | split; [|assumption]].
  intros r. rewrite in_map_iff. intros (x & <- & Hx).
  destruct (id x =? i); [cbn|]; now apply Hb.
Qed.

Lemma sql_delete_ids_ok (d d' : db) (i : Z) :
  ids_ok d -> sql_delete d i = Some d' -> ids_ok d'.
Proof.
  unfold ids_ok, unique_ids, sql_delete, model_rows.
  intros (Hu & Hb & Ha).
  destruct (table d) as [rows|]; [|discriminate].
  intros [= <-]; cbn [table autoinc].
  split; [now apply NoDup_map_filter | split; [|assumption]].
  intros r Hr. apply filter_In in Hr. now apply Hb.
Qed.

Lemma insert_row_ids_ok (d : db) (now : string) (p : payload) :
  ids_ok d -> ids_ok (_insert_row d now p).
Proof.
  intros Hd. unfold _insert_row.
  destruct (sql_insert d now p) eqn:E; [|assumption].
  eapply sql_insert_ids_ok; eassumption.
Qed.

Lemma import_row_ids_ok (d : db) (now : string) (r : csv_row) :
  ids_ok d -> ids_ok (import_row d now r).
Proof.
  intros Hd. unfold import_row.
  destruct (or_None (r col_id)) as [rid|]; [|now apply insert_row_ids_ok].
  destruct (sql_update d (id_of_text rid) (import_payload r)) eqn:E.
  - eapply sql_update_ids_ok; eassumption.
  - now apply insert_row_ids_ok.
Qed.

Lemma import_csv_ids_ok (rows : list csv_row) (d : db) (clock : nat -> string) :
  ids_ok d -> ids_ok (import_csv d clock rows).
Proof.
  revert d clock. induction rows as [|r rows IH]; intros d clock Hd; cbn;
    [assumption|].
  apply IH. now apply import_row_ids_ok.
Qed.

Lemma evolves_refl (d : db) : evolves d d.
Proof.
  split; [lia|]. intros r Hr. left. now exists r.
Qed.

Lemma evolves_trans (a b c : db) : evolves a b -> evolves b c -> evolves a c.
Proof.
  intros [Hab Hb] [Hbc Hc]. split; [lia|].
  intros r'' Hr''. destruct (Hc r'' Hr'') as [(r' & Hr' & Hi & Hc')|Hlt];
    [|right; lia].
  destruct (Hb r' Hr') as [(r & Hr & Hi' & Hc'')|Hlt].
  - left. exists r. repeat split; congruence.
  - right. lia.
Qed.

Lemma sql_insert_evolves (d d' : db) (now : string) (p : payload) :
  sql_insert d now p = Some d' -> evolves d d'.
Proof.
  unfold sql_insert, evolves, model_rows.
  destruct (table d) as [rows|]; [|discriminate].
  destruct (p_titre p) as [t|]; [|discriminate].
  intros H; apply Some_inj in H; subst d'; cbn [table autoinc].
  unfold next_id.
  pose proof (fold_max_ge (map id rows) (autoinc d)).
  split; [lia|]. intros r. rewrite in_app_iff.
  intros [Hr|[<-|[]]]; [left; now exists r | right; cbn [id new_row]; lia].
Qed.

Lemma sql_update_evolves (d d' : db) (k : option Z) (p : payload) :
  sql_update d k p = Some d' -> evolves d d'.
Proof.
  unfold sql_update.
  destruct (table d) as [rows|] eqn:Et; [|discriminate].
  destruct k as [i|]; [|intros [= <-]; apply evolves_refl].
  destruct (existsb _ rows); [|intros [= <-]; apply evolves_refl].
  destruct (p_titre p) as [t|]; [|discriminate].
  intros [= <-]. unfold evolves, model_rows. rewrite Et.
  cbn [table autoinc]. split; [lia|].
  intros r. rewrite in_map_iff. intros (x & <- & Hx). left. exists x.
  destruct (id x =? i); auto.
Qed.

Lemma sql_delete_evolves (d d' : db) (i : Z) :
  sql_delete d i = Some d' -> evolves d d'.
Proof.
  unfold sql_delete, evolves, model_rows.
  destruct (table d) as [rows|]; [|discriminate].
  intros [= <-]; cbn [table autoinc]. split; [lia|].
  intros r Hr. apply filter_In in Hr. left. exists r. tauto.
Qed.

Lemma insert_row_evolves (d : db) (now : string) (p : payload) :
  evolves d (_insert_row d now p).
Proof.
  unfold _insert_row. destruct (sql_insert d now p) eqn:E;
    [now apply sql_insert_evolves in E | apply evolves_refl].
Qed.

Lemma import_row_evolves (d : db) (now : string) (r : csv_row) :
  evolves d (import_row d now r).
Proof.
  unfold import_row.
  destruct (or_None (r col_id)) as [rid|]; [|apply insert_row_evolves].
  destruct (sql_update d (id_of_text rid) (import_payload r)) eqn:E;
    [now apply sql_update_evolves in E | apply insert_row_evolves].
Qed.

Lemma import_csv_evolves (rows : list csv_row) (d : db) (clock : nat -> string) :
  evolves d (import_csv d clock rows).
Proof.
  revert d clock. induction rows as [|r rows IH]; intros d clock; cbn;
    [apply evolves_refl|].
  eapply evolves_trans; [apply import_row_evolves | apply IH].
Qed.

Section Identity.
Context {PS : PyStr}.

Lemma step_ids_ok (w w' : MainWindow) (e : event) :
  ids_ok (database w) -> step w e = Returned w' -> ids_ok (database w').
Proof.
  intros Hw.
  destruct e as [now|days now|dlg now|sel dlg|sel confirm|clock file];
    cbn [step].
  - intros H. apply update_reminders_database in H as [-> _]. assumption.
  - intros H. apply update_reminders_database in H as [-> _]. assumption.
  - intros [= <-]. unfold add_record.
    destruct dlg as [f|]; [|assumption].
    destruct (get_data f) as [p|]; [|assumption]. cbn.
    now apply insert_row_ids_ok.
  - intros [= <-]. unfold edit_selected.
    destruct sel as [k|]; [|assumption].
    destruct (nth_error _ k) as [r|]; [|assumption].
    destruct dlg as [f|]; [|assumption].
    destruct (get_data f) as [p|]; [|assumption]. cbn.
    unfold _update_row. destruct (id r =? 0); [assumption|].
    destruct (sql_update _ _ p) eqn:Eu; [|assumption].
    eapply sql_update_ids_ok; eassumption.
  - intros [= <-]. unfold delete_selected.
    destruct sel as [k|]; [|assumption].
    destruct (nth_error _ k) as [r|]; [|assumption].
    destruct confirm; [|assumption].
    destruct (sql_delete _ _) eqn:Ed; [|assumption]. cbn.
    eapply sql_delete_ids_ok; eassumption.
  - destruct file as [rows|]; intros [= <-]; [|assumption]. cbn.
    now apply import_csv_ids_ok.
Qed.

Lemma run_ids_ok (es : list event) (w w' : MainWindow) :
  ids_ok (database w) -> run w es = Returned w' -> ids_ok (database w').
Proof.
  revert w. induction es as [|e es IH]; intros w Hw; cbn.
  - now intros [= <-].
  - destruct (step w e) as [w1|x] eqn:E; [|discriminate]. cbn [bind].
    apply IH. eapply step_ids_ok; eassumption.
Qed.

Lemma step_evolves (w w' : MainWindow) (e : event) :
  step w e = Returned w' -> evolves (database w) (database w').
Proof.
  destruct e as [now|days now|dlg now|sel dlg|sel confirm|clock file];
    cbn [step].
  - intros H. apply update_reminders_database in H as [-> _].
    apply evolves_refl.
  - intros H. apply update_reminders_database in H as [-> _].
    apply evolves_refl.
  - intros [= <-]. unfold add_record.
    destruct dlg as [f|]; [|apply evolves_refl].
    destruct (get_data f) as [p|]; [|apply evolves_refl]. cbn.
    apply insert_row_evolves.
  - intros [= <-]. unfold edit_selected.
    destruct sel as [k|]; [|apply evolves_refl].
    destruct (nth_error _ k) as [r|]; [|apply evolves_refl].
    destruct dlg as [f|]; [|apply evolves_refl].
    destruct (get_data f) as [p|]; [|apply evolves_refl]. cbn.
    unfold _update_row. destruct (id r =? 0); [apply evolves_refl|].
    destruct (sql_update _ _ p) eqn:Eu; [|apply evolves_refl].
    now apply sql_update_evolves in Eu.
  - intros [= <-]. unfold delete_selected.
    destruct sel as [k|]; [|apply evolves_refl].
    destruct (nth_error _ k) as [r|]; [|apply evolves_refl].
    destruct confirm; [|apply evolves_refl].
    destruct (sql_delete _ _) eqn:Ed; [|apply evolves_refl]. cbn.
    now apply sql_delete_evolves in Ed.
  - destruct file as [rows|]; intros [= <-]; [|apply evolves_refl]. cbn.
    apply import_csv_evolves.
Qed.

(** X6: in every store reached from a new database, whatever the
    events, ids are unique, positive and at most the AUTOINCREMENT
    counter. *)
Theorem ids_unique_along_runs (es : list event) (w : MainWindow) :
  run (window_init ensure_database) es = Returned w ->
  ids_ok (database w).
Proof.
  apply run_ids_ok. unfold ids_ok, unique_ids. cbn.
  repeat split; [constructor | tauto | tauto | lia].
Qed.

(** X7: along any run a record keeps its id and its created_at for as
    long as it exists, and a record that was not there before has an id
    above every id handed out before: ids are never reused. *)
Theorem identity_kept_along_runs (es : list event) (w w' : MainWindow) :
  run w es = Returned w' -> evolves (database w) (database w').
Proof.
  revert w. induction es as [|e es IH]; intros w; cbn.
  - intros [= <-]. apply evolves_refl.
  - destruct (step w e) as [w1|x] eqn:E; [|discriminate]. cbn [bind].
    intros H. eapply evolves_trans; [exact (step_evolves _ _ _ E) | now apply IH].
Qed.
End Identity.

(* ------------------------------------------------------------------ *)
(** ** What the widgets guarantee, and what follows for the store *)

Lemma or_None_never_empty (v : option string) : or_None v <> Some "".
Proof.
  destruct v as [[|c s]|]; cbn; discriminate.
Qed.

Lemma import_payload_no_empty (r : csv_row) :
  payload_no_empty (import_payload r).
Proof. repeat split; apply or_None_never_empty. Qed.

Lemma qdate_to_str_never_empty (d : date) : qdate_to_str d <> Some "".
Proof. unfold qdate_to_str. destruct (valid_date d); discriminate. Qed.

Lemma in_list_not_empty (s : string) (l : list string) :
  In s l -> ~ In "" l -> Some s <> Some "".
Proof. intros Hs Hn [= ->]. contradiction. Qed.

Lemma new_row_no_empty (i : Z) (now t : string) (p : payload) :
  payload_no_empty p -> no_empty_text (new_row i now t p).
Proof. intros H. exact H. Qed.

Lemma digit_value_digit (v : Z) : 0 <= v <= 9 -> digit_value (digit v) = Some v.
Proof.
  intros Hv. unfold digit_value. rewrite N_of_digit by assumption.
  rewrite Z2N.id by lia.
  replace (48 <=? 48 + v) with true by (symmetry; apply Z.leb_le; lia).
  replace (48 + v <=? 57) with true by (symmetry; apply Z.leb_le; lia).
  cbn [andb]. f_equal. lia.
Qed.

(** The text printed for a valid date reads back as that date. *)
Lemma date_of_iso_strftime (d : date) :
  valid_date d = true -> date_of_iso (strftime d) = Some d.
Proof.
  intros Hv. pose proof (valid_date_bounds d Hv) as (Hy & Hm & Hd).
  pose proof (days_in_month_bounds (year d) (month d)) as Hb.
  unfold date_of_iso, strftime, four_digits, two_digits.
  cbn [append list_ascii_of_string Ascii.eqb Bool.eqb andb].
  unfold number_of; cbn [fold_left].
  rewrite !digit_value_digit
    by first [apply digit_low | apply digit_high; lia].
  replace (10 * (10 * (10 * (10 * 0 + year d / 1000) + year d / 100 mod 10)
                 + year d / 10 mod 10) + year d mod 10) with (year d)
    by (clear; Z.to_euclidean_division_equations; lia).
  replace (10 * (10 * 0 + month d / 10) + month d mod 10) with (month d)
    by (clear; Z.to_euclidean_division_equations; lia).
  replace (10 * (10 * 0 + day d / 10) + day d mod 10) with (day d)
    by (clear; Z.to_euclidean_division_equations; lia).
  destruct d as [y m dd]; cbn [year month day] in *. now rewrite Hv.
Qed.

Section Widgets.
Context {PS : PyStr}.

Lemma get_data_no_empty (dlg : CandidatureDialog) (p : payload) :
  dialog_ok dlg -> get_data dlg = Some p -> payload_no_empty p.
Proof.
  intros (_ & _ & Hp & Hc & Hs). unfold get_data.
  destruct (truthy (strip (w_titre dlg))); [|discriminate].
  intros H. apply Some_inj in H. subst p. unfold payload_no_empty.
  cbn [p_numero p_structure p_date_limite p_priorite p_canal_envoi p_statut
       p_date_envoi p_notes].
  repeat split;
    try apply or_None_never_empty; try apply qdate_to_str_never_empty.
  - apply (in_list_not_empty _ PRIORITES); [assumption|].
    cbn. intuition discriminate.
  - apply (in_list_not_empty _ CANAL_ENVOI); [assumption|].
    cbn. intuition discriminate.
  - apply (in_list_not_empty _ STATUTS); [assumption|].
    cbn. intuition discriminate.
Qed.

Lemma get_data_iso_deadline (dlg : CandidatureDialog) (p : payload) :
  dialog_ok dlg -> get_data dlg = Some p -> payload_iso_deadline p.
Proof.
  intros (Hv & _). unfold get_data.
  destruct (truthy (strip (w_titre dlg))); [|discriminate].
  intros [= <-] x. cbn. unfold qdate_to_str. rewrite Hv.
  intros [= <-]. now rewrite date_of_iso_strftime.
Qed.

Lemma event_no_empty (e : event) :
  event_dialog_ok e -> event_payloads payload_no_empty e.
Proof.
  destruct e as [now|days now|[dlg|] now|sel [dlg|]|sel confirm|clock [file|]];
    cbn; try tauto.
  - intros H p. now apply get_data_no_empty.
  - intros H p. now apply get_data_no_empty.
  - intros _ r _. apply import_payload_no_empty.
Qed.

Lemma event_iso (e : event) :
  event_iso_deadline e -> event_payloads payload_iso_deadline e.
Proof.
  destruct e as [now|days now|[dlg|] now|sel [dlg|]|sel confirm|clock [file|]];
    cbn; try tauto.
  - intros H p. now apply get_data_iso_deadline.
  - intros H p. now apply get_data_iso_deadline.
Qed.

(** X8: for every store reached from a new database through dialogs in
    a state the widgets allow, deletions and CSV imports, exporting all
    records and importing the file again gives back the same store. *)
Theorem roundtrip_on_reached_stores
  (es : list event) (w : MainWindow) (clock : nat -> string) :
  run (window_init ensure_database) es = Returned w ->
  Forall event_dialog_ok es ->
  import_csv (database w) clock (export_csv (database w)) = database w.
Proof.
  intros Hrun Hes.
  assert (Hids : ids_ok (database w))
    by (eapply run_ids_ok; [|exact Hrun];
        unfold ids_ok, unique_ids; cbn;
        repeat split; [constructor | tauto | tauto | lia]).
  assert (Hne : all_rows no_empty_text (database w)).
  { eapply (run_all_rows no_empty_text payload_no_empty new_row_no_empty);
      [| |exact Hrun].
    - intros r [].
    - eapply Forall_impl; [|exact Hes]. apply event_no_empty. }
  unfold export_csv. apply import_exported_rows; [apply Hids|].
  intros r Hr. split; [assumption | now apply Hne].
Qed.

(** X9: a store fed from a new database through dialogs in a state the
    widgets allow, deletions, and CSV files whose date_limite column is
    empty or an ISO date, holds ISO dates only as deadlines, which is
    what the count of due records relies on. *)
Theorem deadlines_stay_iso (es : list event) (w : MainWindow) :
  run (window_init ensure_database) es = Returned w ->
  Forall event_iso_deadline es ->
  iso_deadlines (model_rows (database w)).
Proof.
  intros Hrun Hes r x Hr.
  revert x. change (row_iso_deadline r). revert r Hr.
  eapply (run_all_rows row_iso_deadline payload_iso_deadline);
    [| |eapply Forall_impl; [|exact Hes]; apply event_iso|exact Hrun].
  - intros i now t p Hp. exact Hp.
  - intros r [].
Qed.
End Widgets.

(* ------------------------------------------------------------------ *)
(** ** The store and the reminder do not interfere; a missing table *)

Section StoreEffect.
Context {PS : PyStr}.

Lemma step_store_effect (w w' : MainWindow) (e : event) :
  step w e = Returned w' -> database w' = store_effect (database w) e.
Proof.
  unfold store_effect.
  destruct e as [now|days now|dlg now|sel dlg|sel confirm|clock file];
    cbn [step].
  - intros H. apply update_reminders_database in H as [-> _].
    destruct (update_reminders _ now) eqn:E; [|reflexivity].
    now apply update_reminders_database in E as [-> _].
  - intros H. apply update_reminders_database in H as [-> _].
    destruct (on_remind_days_changed _ days now) eqn:E; [|reflexivity].
    now apply update_reminders_database in E as [-> _].
  - intros [= <-]. unfold add_record.
    destruct dlg as [f|]; [|reflexivity].
    destruct (get_data f); reflexivity.
  - intros [= <-]. unfold edit_selected.
    destruct sel as [k|]; [|reflexivity]. cbn [database window_init].
    destruct (nth_error _ k); [|reflexivity].
    destruct dlg as [f|]; [|reflexivity].
    destruct (get_data f); reflexivity.
  - intros [= <-]. unfold delete_selected.
    destruct sel as [k|]; [|reflexivity]. cbn [database window_init].
    destruct (nth_error _ k); [|reflexivity].
    destruct confirm; [|reflexivity].
    destruct (sql_delete _ _); reflexivity.
  - destruct file; intros [= <-]; reflexivity.
Qed.

(** X10: the store at the end of a run is the store at its start taken
    through the events one by one: the indicator, the window and the
    dates of the timer ticks have no part in it, and ticks and window
    changes leave the store as it is. *)
Theorem store_follows_events_only (es : list event) (w w' : MainWindow) :
  run w es = Returned w' ->
  database w' = fold_left store_effect es (database w)
  /\ (forall d now, store_effect d (ev_timeout now) = d)
  /\ (forall d days now, store_effect d (ev_remind_days_changed days now) = d).
Proof.
  intros Hrun. split; [|split].
  - revert w Hrun. induction es as [|e es IH]; intros w; cbn.
    + now intros [= <-].
    + destruct (step w e) as [w1|x] eqn:E; [|discriminate]. cbn [bind].
      intros H. rewrite (IH _ H). now rewrite (step_store_effect _ _ _ E).
  - intros d now. unfold store_effect; cbn [step].
    destruct (update_reminders _ now) eqn:E; [|reflexivity].
    now apply update_reminders_database in E as [-> _].
  - intros d days now. unfold store_effect; cbn [step].
    destruct (on_remind_days_changed _ days now) eqn:E; [|reflexivity].
    now apply update_reminders_database in E as [-> _].
Qed.

Lemma import_csv_no_table (rows : list csv_row) (d : db) (clock : nat -> string) :
  table d = None -> import_csv d clock rows = d.
Proof.
  intros Ht. revert clock. induction rows as [|r rows IH]; intros clock; cbn;
    [reflexivity|].
  assert (H : import_row d (clock O) r = d).
  { unfold import_row, _insert_row, sql_update, sql_insert. rewrite Ht.
    destruct (or_None (r col_id)); reflexivity. }
  rewrite H. apply IH.
Qed.

Lemma step_no_table (w w' : MainWindow) (e : event) :
  table (database w) = None -> lbl_alerts w = "" ->
  step w e = Returned w' ->
  database w' = database w /\ lbl_alerts w' = "".
Proof.
  intros Ht Hl.
  destruct e as [now|days now|dlg now|sel dlg|sel confirm|clock file];
    cbn [step].
  - unfold update_reminders, count_deadline_within, sql_count_due.
    rewrite Ht. destruct (timedelta_add now _); [|discriminate].
    cbn. now intros [= <-].
  - unfold on_remind_days_changed, update_reminders, count_deadline_within,
      sql_count_due. cbn [database remind_days].
    rewrite Ht. destruct (timedelta_add now _); [|discriminate].
    cbn. now intros [= <-].
  - intros [= <-]. unfold add_record, _insert_row, sql_insert.
    destruct dlg as [f|]; [|tauto].
    destruct (get_data f); [|tauto]. rewrite Ht. tauto.
  - intros [= <-]. unfold edit_selected, model_rows. rewrite Ht.
    destruct sel as [[|k]|]; tauto.
  - intros [= <-]. unfold delete_selected, model_rows. rewrite Ht.
    destruct sel as [[|k]|]; tauto.
  - destruct file as [rows|]; intros [= <-]; [|tauto]. cbn.
    now rewrite import_csv_no_table.
Qed.

(** X11: when the program is started on an existing file that has no
    table (none is created then), no run ever stores anything: the
    database stays as it was and the indicator stays empty. *)
Theorem missing_table_blocks_everything
  (d : db) (es : list event) (w : MainWindow) :
  table d = None ->
  run (window_init (ensure_database_at (Some d))) es = Returned w ->
  database w = d /\ lbl_alerts w = "".
Proof.
  intros Ht. cbn [ensure_database_at].
  assert (G : forall es v, database v = d -> lbl_alerts v = "" ->
              run v es = Returned w -> database w = d /\ lbl_alerts w = "").
  { clear es. induction es as [|e es IH]; intros v Hd Hl; cbn.
    - intros [= <-]. tauto.
    - destruct (step v e) as [v1|x] eqn:E; [|discriminate]. cbn [bind].
      apply step_no_table in E as [E1 E2]; [|congruence|assumption].
      apply IH; congruence. }
  now apply G.
Qed.
End StoreEffect.

(* ------------------------------------------------------------------ *)
(** ** Import, export and the three edits, row by row *)



Lemma import_exported_foreign_row (t : db) (trows : list row) (now : string)
  (r : row) :
  table t = Some trows ->
  existsb (fun x => id x =? id r) trows = false ->
  import_row t now (exported r) = t.
Proof.
  intros Ht Hex. unfold import_row, exported, sql_update.
  cbn [model_data csv_text].
  rewrite or_None_Some by apply text_of_id_truthy.
  now rewrite id_of_text_of_id, Ht, Hex.
Qed.

(** X13: importing the file exported from a store [d] into a table that
    holds none of the ids of [d] changes nothing; in particular a file
    exported elsewhere brings nothing into a new, empty database. *)
Theorem import_of_foreign_export_changes_nothing
  (t d : db) (trows : list row) (clock : nat -> string) :
  table t = Some trows ->
  (forall r, In r (model_rows d) ->
             existsb (fun x => id x =? id r) trows = false) ->
  import_csv t clock (export_csv d) = t
  /\ import_csv ensure_database clock (export_csv d) = ensure_database.
Proof.
  assert (G : forall (l : list row) (u : db) (urows : list row) c,
            table u = Some urows ->
            (forall r, In r l -> existsb (fun x => id x =? id r) urows = false) ->
            import_csv u c (map exported l) = u).
  { induction l as [|r l IH]; intros u urows c Hu Hl; cbn [map import_csv];
      [reflexivity|].
    rewrite (import_exported_foreign_row u urows) by (auto; apply Hl; now left).
    apply (IH u urows); [assumption|]. intros x Hx. apply Hl. now right. }
  intros Ht Hd. unfold export_csv. split.
  - now apply (G _ t trows).
  - apply (G _ ensure_database []); [reflexivity|]. reflexivity.
Qed.

(** With unique ids, rewriting the rows of id [id r0] touches the row
    [r0] alone. *)
Lemma map_at_unique_id (f : row -> row) (rows : list row) (k : nat) (r0 : row) :
  NoDup (map id rows) -> nth_error rows k = Some r0 ->
  map (fun x => if id x =? id r0 then f x else x) rows
  = (firstn k rows ++ f r0 :: skipn (S k) rows)%list.
Proof.
  revert k. induction rows as [|x rows IH]; intros k Hnd Hk.
  - destruct k; discriminate.
  - inversion_clear Hnd as [|? ? Hx Hl]. destruct k as [|k]; cbn in Hk.
    + injection Hk as ->. cbn [map firstn skipn]. rewrite <- ?app_comm_cons, ?app_nil_l. rewrite Z.eqb_refl.
      f_equal. apply map_id_on. intros y Hy.
      destruct (id y =? id r0) eqn:E; [|reflexivity].
      exfalso. apply Hx. apply Z.eqb_eq in E. rewrite <- E. now apply in_map.
    + cbn [map firstn skipn]. rewrite <- ?app_comm_cons, ?app_nil_l.
      destruct (id x =? id r0) eqn:E.
      * exfalso. apply Hx. apply Z.eqb_eq in E. rewrite E.
        apply in_map. eapply nth_error_In; eassumption.
      * f_equal. now apply IH.
Qed.

Lemma filter_at_unique_id (rows : list row) (k : nat) (r0 : row) :
  NoDup (map id rows) -> nth_error rows k = Some r0 ->
  filter (fun x => negb (id x =? id r0)) rows
  = (firstn k rows ++ skipn (S k) rows)%list.
Proof.
  revert k. induction rows as [|x rows IH]; intros k Hnd Hk.
  - destruct k; discriminate.
  - inversion_clear Hnd as [|? ? Hx Hl]. destruct k as [|k]; cbn in Hk.
    + injection Hk as ->. cbn [filter firstn skipn]. rewrite <- ?app_comm_cons, ?app_nil_l. rewrite Z.eqb_refl.
      cbn [negb]. rewrite <- (map_id_on (fun y => y) rows) at 2 by reflexivity.
      rewrite map_id. apply forallb_filter_id. apply forallb_forall.
      intros y Hy. destruct (id y =? id r0) eqn:E; [|reflexivity].
      exfalso. apply Hx. apply Z.eqb_eq in E. rewrite <- E. now apply in_map.
    + cbn [filter firstn skipn]. rewrite <- ?app_comm_cons, ?app_nil_l.
      destruct (id x =? id r0) eqn:E.
      * exfalso. apply Hx. apply Z.eqb_eq in E. rewrite E.
        apply in_map. eapply nth_error_In; eassumption.
      * cbn [negb]. f_equal. now apply IH.
Qed.

(** X14: a row of the file whose id is that of the record at position
    [k], and which has a titre, rewrites that record in place from
    the row, keeping its id and created_at; every other record, the order
    of the table and the AUTOINCREMENT counter stay as they were. *)
Theorem import_known_id_updates_in_place
  (d : db) (rows : list row) (clock : nat -> string) (r : csv_row)
  (rid t : string) (k : nat) (r0 : row) :
  table d = Some rows -> NoDup (map id rows) ->
  r col_id = Some rid -> truthy rid = true -> id_of_text rid = Some (id r0) ->
  or_None (r col_titre) = Some t ->
  nth_error rows k = Some r0 ->
  import_csv d clock [r]
  = mkdb (Some (firstn k rows
                ++ new_row (id r0) (created_at r0) t (import_payload r)
                   :: skipn (S k) rows)%list)
      (autoinc d).
Proof.
  intros Ht Hnd Hr Hrid Hi Hti Hk. cbn [import_csv].
  unfold import_row, sql_update.
  rewrite Hr, (or_None_Some _ Hrid), Hi, Ht.
  rewrite existsb_id by (eapply nth_error_In; eassumption).
  cbn [import_payload p_titre]. rewrite Hti.
  now rewrite (map_at_unique_id _ rows k r0 Hnd Hk).
Qed.

Section Edits.
Context {PS : PyStr}.

(** X15: on a store whose ids are unique and positive, accepting the
    edit dialog for the record selected at position [k] rewrites that
    record from the dialog, keeping its id and created_at, and leaves
    every other record and the order of the table as they were. *)
Theorem edit_selected_rewrites_one_record
  (w : MainWindow) (rows : list row) (k : nat) (r0 : row)
  (dlg : CandidatureDialog) (p : payload) (t : string) :
  table (database w) = Some rows -> ids_ok (database w) ->
  nth_error rows k = Some r0 ->
  get_data dlg = Some p -> p_titre p = Some t ->
  database (edit_selected w (Some k) (Some dlg))
  = mkdb (Some (firstn k rows
                ++ new_row (id r0) (created_at r0) t p
                   :: skipn (S k) rows)%list)
      (autoinc (database w)).
Proof.
  intros Ht (Hu & Hb & _) Hk Hg Hp.
  unfold unique_ids, model_rows in *. rewrite Ht in *.
  unfold edit_selected, model_rows. rewrite Ht, Hk, Hg.
  cbn [database with_database]. unfold _update_row, sql_update.
  assert (Hin : In r0 rows) by (eapply nth_error_In; eassumption).
  replace (id r0 =? 0) with false
    by (symmetry; apply Z.eqb_neq; specialize (Hb r0 Hin); lia).
  rewrite Ht, existsb_id, Hp by assumption.
  now rewrite (map_at_unique_id _ rows k r0 Hu Hk).
Qed.

(** X16: confirming the deletion of the record selected at position
    [k] of a store with unique ids removes that record and no other. *)
Theorem delete_selected_removes_one_record
  (w : MainWindow) (rows : list row) (k : nat) (r0 : row) :
  table (database w) = Some rows -> unique_ids (database w) ->
  nth_error rows k = Some r0 ->
  database (delete_selected w (Some k) true)
  = mkdb (Some (firstn k rows ++ skipn (S k) rows)%list)
      (autoinc (database w)).
Proof.
  intros Ht Hu Hk. unfold unique_ids, model_rows in Hu. rewrite Ht in Hu.
  unfold delete_selected, model_rows, sql_delete. rewrite Ht, Hk.
  cbn [database with_database].
  now rewrite (filter_at_unique_id rows k r0 Hu Hk).
Qed.
End Edits.


(* ------------------------------------------------------------------ *)
(** ** The edit dialog, the hidden columns and the theme *)

Lemma date_edit_setDate_in_range (cur d : date) :
  valid_date d = true -> 1970 < year d -> year d < 9999 ->
  date_edit_setDate cur d = d.
Proof.
  intros Hv H1 H2. unfold date_edit_setDate. rewrite Hv.
  destruct (date_leb d DATE_EDIT_MIN) eqn:E1.
  - apply date_leb_iff in E1. cbn in E1. lia.
  - destruct (date_leb DATE_EDIT_MAX d) eqn:E2; [|reflexivity].
    apply date_leb_iff in E2. cbn in E2. lia.
Qed.

Section EditDialog.
Context {PS : PyStr} {QT : QtText} {PT : PyTime}.

(** X18: the dates saved from the edit dialog of a record, when the
    current date [today] lies after 1970 and before 9999.  A deadline
    that is absent, empty or not read by [strptime] is saved as the
    text of [today]; one that [strptime] reads as a date after 1970 and
    before 9999 is saved as the ISO text of that date.  A date of
    sending that is absent is saved as the text of [today] too. *)
Theorem edit_dialog_dates (today : date) (r : row) (p : payload) :
  valid_date today = true -> 1970 < year today -> year today < 9999 ->
  get_data (edit_dialog today r) = Some p ->
  (or_None (date_limite r) = None -> p_date_limite p = Some (strftime today))
  /\ (forall s, date_limite r = Some s -> strptime s = None ->
                p_date_limite p = Some (strftime today))
  /\ (forall s dt, date_limite r = Some s -> truthy s = true ->
                   strptime s = Some dt -> valid_date dt = true ->
                   1970 < year dt -> year dt < 9999 ->
                   p_date_limite p = Some (strftime dt))
  /\ (date_envoi r = None -> p_date_envoi p = Some (strftime today)).
Proof.
  intros Hv H1 H2. unfold get_data, edit_dialog, load_data, _row_to_dict.
  cbn [w_titre w_numero w_structure w_date_limite w_date_envoi w_priorite
       w_canal w_statut w_notes dialog_new model_data].
  destruct (truthy _); [|discriminate].
  intros H. apply Some_inj in H. subst p.
  cbn [p_date_limite p_date_envoi].
  rewrite (date_edit_setDate_in_range _ today Hv H1 H2).
  assert (Ht : qdate_to_str today = Some (strftime today))
    by (unfold qdate_to_str; now rewrite Hv).
  repeat split.
  - intros Hn. destruct (date_limite r) as [s|]; cbn in *; [|exact Ht].
    destruct (truthy s); [discriminate | exact Ht].
  - intros s Hs Hp. rewrite Hs. cbn [text_value as_text set_qdate].
    rewrite Hp. destruct (truthy s); exact Ht.
  - intros s dt Hs Hts Hp Hvd Hd1 Hd2. rewrite Hs.
    cbn [text_value as_text set_qdate]. rewrite Hts, Hp.
    rewrite date_edit_setDate_in_range by assumption.
    unfold qdate_to_str. now rewrite Hvd.
  - intros Hn. rewrite Hn. exact Ht.
Qed.

(** X19: the three combo boxes of the edit dialog.  A stored priorite,
    canal_envoi or statut that is one of the items of its combo box is
    saved as it is; any other value, an absent one included, is saved as
    the first item: "Faible", "Email", "À postuler". *)
Theorem edit_dialog_combos (today : date) (r : row) (p : payload) :
  get_data (edit_dialog today r) = Some p ->
  p_priorite p
  = Some (if str_in (priorite r) PRIORITES
          then or_empty (priorite r) else "Faible")
  /\ p_canal_envoi p
     = Some (if str_in (canal_envoi r) CANAL_ENVOI
             then or_empty (canal_envoi r) else "Email")
  /\ p_statut p
     = Some (if str_in (statut r) STATUTS
             then or_empty (statut r) else "À postuler").
Proof.
  unfold get_data, edit_dialog, load_data, _row_to_dict.
  cbn [w_titre w_numero w_structure w_date_limite w_date_envoi w_priorite
       w_canal w_statut w_notes dialog_new model_data].
  destruct (truthy _); [|discriminate].
  intros H. apply Some_inj in H. subst p.
  cbn [p_priorite p_canal_envoi p_statut].
  destruct (priorite r), (canal_envoi r), (statut r); repeat split.
Qed.
End EditDialog.

Section HiddenColumns.
Context {PS : PyStr} {RE : RegexEngine}.

Lemma hide_columns_no_row (p : CandidatureFilterProxy) (names : list string)
  (hidden : list column) :
  hide_columns p [] hidden names = hidden.
Proof.
  unfold hide_columns. revert hidden.
  induction names as [|n names IH]; intros hidden; cbn [fold_left];
    [reflexivity|].
  destruct (fieldIndex n); apply IH.
Qed.

Lemma hide_columns_first_row (p : CandidatureFilterProxy) (r0 : row)
  (rows : list row) (names : list string) (hidden : list column) (c : column) :
  filterAcceptsRow p r0 = true ->
  In c (hide_columns p (r0 :: rows) hidden names)
  <-> In c hidden \/ exists n, In n names /\ fieldIndex n = Some c.
Proof.
  intros Ha. unfold hide_columns. cbv beta iota. revert hidden.
  induction names as [|n names IH]; intros hidden; cbn [fold_left].
  - split; [tauto|]. intros [H|(n & [] & _)]. assumption.
  - destruct (fieldIndex n) as [c'|] eqn:E; rewrite IH; [rewrite Ha|].
    + cbn [In]. split.
      * intros [[<-|H]|(m & Hm & Hf)]; [right; exists n; auto | tauto|].
        right; exists m; auto.
      * intros [H|(m & [<-|Hm] & Hf)]; [tauto | left; left; congruence|].
        right; exists m; auto.
    + split.
      * intros [H|(m & Hm & Hf)]; [tauto|]. right; exists m; cbn; auto.
      * intros [H|(m & [<-|Hm] & Hf)]; [tauto | congruence|].
        right; exists m; auto.
Qed.

(** X20: [hide_columns] hides nothing when the table is empty, as it is
    on the first start, so the id and created_at columns stay in view;
    with a first row that the proxy lets through, it hides exactly the
    named columns that exist, on top of those already hidden. *)
Theorem hide_columns_needs_a_row
  (p : CandidatureFilterProxy) (r0 : row) (rows : list row)
  (names : list string) (hidden : list column) (c : column) :
  filterAcceptsRow p r0 = true ->
  hide_columns p [] hidden names = hidden
  /\ (In c (hide_columns p (r0 :: rows) hidden names)
      <-> In c hidden \/ exists n, In n names /\ fieldIndex n = Some c).
Proof.
  intros Ha. split;
    [apply hide_columns_no_row | now apply hide_columns_first_row].
Qed.
End HiddenColumns.

(** X21: after any number of clicks on the theme button the window is
    in one of two states: after an even number the light one it started
    in, with no style sheet and a button that offers the dark mode; after
    an odd number the dark one, with a button that offers the light mode. *)
Theorem toggle_theme_alternates (n : nat) :
  Nat.iter n toggle_theme theme_init
  = if Nat.even n then theme_init
    else mktheme true DARK_STYLE "Mode clair".
Proof.
  induction n as [|n IH]; [reflexivity|].
  rewrite Nat.iter_succ, IH, Nat.even_succ, <- Nat.negb_even.
  destruct (Nat.even n); reflexivity.
Qed.

(* ------------------------------------------------------------------ *)
(** ** Runs of the further properties on sample data *)

Lemma sample_run : run (window_init ensure_database) sample_events
                   = Returned sample_window.
Proof. reflexivity. Qed.

Lemma due_dialog_ok : dialog_ok due_dialog.
Proof.
  unfold dialog_ok; cbn. repeat split; auto.
Qed.

Lemma sample_events_dialog_ok : Forall event_dialog_ok sample_events.
Proof.
  apply Forall_cons; [exact due_dialog_ok|].
  apply Forall_cons; [exact I|].
  apply Forall_cons; [exact I|].
  apply Forall_cons; [exact I | apply Forall_nil].
Qed.

Lemma sample_events_iso : Forall event_iso_deadline sample_events.
Proof.
  apply Forall_cons; [exact due_dialog_ok|].
  apply Forall_cons; [exact I|].
  apply Forall_cons; [intros r [<-|[]] x; cbn; discriminate|].
  apply Forall_cons; [exact I | apply Forall_nil].
Qed.

Lemma scenario_ids_ok : ids_ok scenario_db.
Proof.
  unfold ids_ok, unique_ids; cbn. repeat split.
  - repeat constructor; cbn; intuition discriminate.
  - destruct H as [<-|[<-|[]]]; cbn; lia.
  - destruct H as [<-|[<-|[]]]; cbn; lia.
  - lia.
Qed.

Lemma ids_unique_along_runs_witness : ids_ok (database sample_window).
Proof. exact (ids_unique_along_runs sample_events sample_window sample_run). Defined.

Lemma identity_kept_along_runs_witness :
  evolves ensure_database (database sample_window).
Proof.
  exact (identity_kept_along_runs sample_events
           (window_init ensure_database) sample_window sample_run).
Defined.

Lemma roundtrip_on_reached_stores_witness :
  import_csv (database sample_window) noon (export_csv (database sample_window))
  = database sample_window.
Proof.
  exact (roundtrip_on_reached_stores sample_events sample_window noon
           sample_run sample_events_dialog_ok).
Defined.

Lemma deadlines_stay_iso_witness :
  iso_deadlines (model_rows (database sample_window)).
Proof.
  exact (deadlines_stay_iso sample_events sample_window sample_run
           sample_events_iso).
Defined.

Lemma store_follows_events_only_witness :
  database sample_window
  = fold_left store_effect sample_events ensure_database.
Proof.
  exact (proj1 (store_follows_events_only sample_events
                  (window_init ensure_database) sample_window sample_run)).
Defined.

Lemma missing_table_blocks_everything_witness :
  database (mkwindow broken_db 3 "") = broken_db
  /\ lbl_alerts (mkwindow broken_db 3 "") = "".
Proof.
  apply (missing_table_blocks_everything (PS := AsciiStr) broken_db sample_events
           (mkwindow broken_db 3 "") eq_refl eq_refl).
Defined.


Lemma import_of_foreign_export_changes_nothing_witness :
  import_csv scenario_db noon (export_csv foreign_db) = scenario_db
  /\ import_csv ensure_database noon (export_csv foreign_db) = ensure_database.
Proof.
  apply (import_of_foreign_export_changes_nothing scenario_db foreign_db
           scenario_rows noon eq_refl).
  intros r [<-|[]]; reflexivity.
Defined.

Lemma import_known_id_updates_in_place_witness :
  import_csv scenario_db noon [csv_id_titre "2" "Ops2"]
  = mkdb (Some [mkrow 1 None "Dev" None (Some "2025-01-10") (Some "Moyenne")
                  (Some "Email") (Some "À postuler") None None
                  "2025-01-01 00:00:00";
                mkrow 2 None "Ops2" None None None None None None None
                  "2025-01-01 00:00:00"]) 2.
Proof.
  apply (import_known_id_updates_in_place scenario_db scenario_rows noon
           (csv_id_titre "2" "Ops2") "2" "Ops2" 1
           (mkrow 2 None "Ops" None (Some "2025-01-10") (Some "Moyenne")
              (Some "Email") (Some "Envoyé") None None "2025-01-01 00:00:00")
           eq_refl (proj1 scenario_ids_ok) eq_refl eq_refl eq_refl eq_refl
           eq_refl).
Defined.

Lemma edit_selected_rewrites_one_record_witness :
  database (edit_selected (window_init scenario_db) (Some 1%nat)
              (Some due_dialog))
  = mkdb (Some [mkrow 1 None "Dev" None (Some "2025-01-10") (Some "Moyenne")
                  (Some "Email") (Some "À postuler") None None
                  "2025-01-01 00:00:00";
                mkrow 2 None "Dev" None (Some "2025-01-10") (Some "Moyenne")
                  (Some "Email") (Some "À postuler") (Some "2025-01-08") None
                  "2025-01-01 00:00:00"]) 2.
Proof.
  apply (edit_selected_rewrites_one_record (PS := AsciiStr)
           (window_init scenario_db)
           scenario_rows 1
           (mkrow 2 None "Ops" None (Some "2025-01-10") (Some "Moyenne")
              (Some "Email") (Some "Envoyé") None None "2025-01-01 00:00:00")
           due_dialog due_payload "Dev" eq_refl scenario_ids_ok eq_refl
           eq_refl eq_refl).
Defined.

Lemma delete_selected_removes_one_record_witness :
  database (delete_selected (window_init scenario_db) (Some O) true)
  = mkdb (Some [mkrow 2 None "Ops" None (Some "2025-01-10") (Some "Moyenne")
                  (Some "Email") (Some "Envoyé") None None
                  "2025-01-01 00:00:00"]) 2.
Proof.
  apply (delete_selected_removes_one_record (window_init scenario_db)
           scenario_rows O
           (mkrow 1 None "Dev" None (Some "2025-01-10") (Some "Moyenne")
              (Some "Email") (Some "À postuler") None None
              "2025-01-01 00:00:00")
           eq_refl (proj1 scenario_ids_ok) eq_refl).
Defined.


Lemma edit_dialog_dates_witness :
  p_date_limite
    (mkpayload None (Some "Dev") None (Some "2025-01-08") (Some "Faible")
       (Some "Email") (Some "À postuler") (Some "2025-01-08") None)
  = Some (strftime jan8).
Proof.
  apply (proj1 (edit_dialog_dates (PS := AsciiStr) (QT := PlainText)
                  (PT := IsoTime) jan8 (titled 1 "Dev")
                  (mkpayload None (Some "Dev") None (Some "2025-01-08")
                     (Some "Faible") (Some "Email") (Some "À postuler")
                     (Some "2025-01-08") None)
                  eq_refl eq_refl eq_refl eq_refl)).
  reflexivity.
Defined.

Lemma edit_dialog_combos_witness :
  p_statut
    (mkpayload None (Some "Dev") None (Some "2025-01-08") (Some "Faible")
       (Some "Email") (Some "À postuler") (Some "2025-01-08") None)
  = Some "À postuler".
Proof.
  apply (proj2 (proj2 (edit_dialog_combos (PS := AsciiStr) (QT := PlainText)
                         (PT := IsoTime) jan8 (titled 1 "Dev")
                         (mkpayload None (Some "Dev") None (Some "2025-01-08")
                            (Some "Faible") (Some "Email") (Some "À postuler")
                            (Some "2025-01-08") None)
                         eq_refl))).
Defined.

Lemma hide_columns_needs_a_row_witness :
  hide_columns proxy_init [] [] ["id"; "created_at"] = []
  /\ (In col_id (hide_columns proxy_init [titled 1 "Dev"] []
                   ["id"; "created_at"])
      <-> In col_id [] \/ exists n, In n ["id"; "created_at"]
                                    /\ fieldIndex n = Some col_id).
Proof.
  apply (hide_columns_needs_a_row (PS := AsciiStr) (RE := MiniRegex)
           proxy_init (titled 1 "Dev") []
           ["id"; "created_at"] [] col_id eq_refl).
Defined.
